(** * Django session tokens in Go: a shallow embedding of go-gin-django-session

    The development follows the package [django_session]:

    - [signer.go]: the base-62 and base64url codecs, the salted HMAC
      signature, [Unsign], [UnsignTimestamp], [SignTimestamp], [SignObject],
      [UnsignObject] and the session helpers [DecodeSessionData...],
      [EncodeSessionData...], [UpdateSessionData...];
    - [client.go]: the sentinel errors, [RawSession], [Client],
      [GetRawSession] and [decodeSessionData];
    - [middleware.go]: [getSessionFromCookie], [setConfigDefaults],
      [AuthMiddleware] and [OptionalAuthMiddleware].

    Go values are modelled as follows.  A Go [string] is a Rocq [string]
    (a sequence of 8-bit characters), a [[]byte] is a [list byte], an
    [int64] is a [Z] whose wrap-around is written out with [Int64.wrap], a
    [map[string]interface{}] is a [gmap string value].  The wall clock is an
    explicit argument of every function that reads it.  Functions of Go's
    standard library are modelled next to the code that calls them:
    [crypto/sha256], [crypto/hmac] and [encoding/base64] are executable
    definitions; [compress/zlib] and [encoding/json] are interfaces (type
    classes), of which executable sample instances are given for running the
    code on concrete inputs. *)

From Stdlib Require Import ZArith Lia List String Ascii.
From Stdlib.Strings Require Import Byte.
From Stdlib Require Import SpecFloat.
From stdpp Require Import base gmap strings list pretty.

#[local] Open Scope Z_scope.
#[local] Set Warnings "-register-all".
#[local] Arguments String.append !_ _ / : simpl nomatch.

(** ** Machine integers *)

Module Int64.
Definition min : Z := - 2 ^ 63.
Definition max : Z := 2 ^ 63 - 1.

(** Two's complement wrap-around of an [int64] result. *)
Definition wrap (z : Z) : Z := (z + 2 ^ 63) mod 2 ^ 64 - 2 ^ 63.

Definition InRange (z : Z) : Prop := min <= z <= max.
End Int64.

(** ** Errors and results *)

(** The [error] values the package can return.  The first four are the
    package-level sentinels of client.go; [pgx_ErrNoRows] is the store
    driver's sentinel; [LibraryError] stands for an error value made by a
    standard-library package.  [New msg] is [errors.New(msg)] or a
    [fmt.Errorf] without verbs, [Errorf_w msg e] is
    [fmt.Errorf(msg + ": %w", e)].  The three remaining constructors are the
    [fmt.Errorf] calls that format a value into the message. *)
Inductive error : Type :=
  | ErrSessionNotFound
  | ErrSessionExpired
  | ErrInvalidSignature
  | ErrUserNotFound
  | pgx_ErrNoRows
  | LibraryError (pkg : string)
  | New (msg : string)
  | Errorf_w (msg : string) (cause : error)
  | Errorf_base62_character
  | Errorf_signature_age (age maxAge : Z)
  | Errorf_user_ID_type (T : string).

#[global] Instance error_eq_dec : EqDecision error.
Proof. solve_decision. Defined.

(** [errors.Is(err, target)] for a sentinel [target]: [err] is the target or
    wraps it through a chain of [%w]. *)
Fixpoint errors_Is (err target : error) : bool :=
  bool_decide (err = target) ||
  match err with
  | Errorf_w _ cause => errors_Is cause target
  | _ => false
  end.

(** The outcome of a call: a value, a returned [error], or a run-time panic
    (only a slice expression out of range can panic in this package). *)
Inductive result (A : Type) : Type :=
  | Ok (a : A)
  | Err (e : error)
  | Panic.
Arguments Ok {A} a.
Arguments Err {A} e.
Arguments Panic {A}.

#[global] Instance result_ret : MRet result := @Ok.
#[global] Instance result_bind : MBind result := fun A B f r =>
  match r with
  | Ok a => f a
  | Err e => Err e
  | Panic => Panic
  end.

(** A slice expression that panics when out of range. *)
Definition or_panic {A} (o : option A) : result A :=
  match o with Some a => Ok a | None => Panic end.

(** ** The [strings] package and slice expressions *)

Module GoStrings.

(** [len(s)]: the number of bytes. *)
Definition len (s : string) : Z := Z.of_nat (String.length s).

Fixpoint HasPrefix (s prefix : string) {struct prefix} : bool :=
  match prefix with
  | EmptyString => true
  | String p prefix' =>
      match s with
      | EmptyString => false
      | String c s' => Ascii.eqb c p && HasPrefix s' prefix'
      end
  end.

Fixpoint index_from (s substr : string) (i : Z) : Z :=
  if HasPrefix s substr then i
  else match s with
       | EmptyString => -1
       | String _ s' => index_from s' substr (i + 1)
       end.

(** [strings.Index]: the first occurrence, or -1. *)
Definition Index (s substr : string) : Z := index_from s substr 0.

Definition Contains (s substr : string) : bool := 0 <=? Index s substr.

Fixpoint last_index_from (s substr : string) (i best : Z) : Z :=
  let best' := if HasPrefix s substr then i else best in
  match s with
  | EmptyString => best'
  | String _ s' => last_index_from s' substr (i + 1) best'
  end.

(** [strings.LastIndex]: the last occurrence, or -1; the empty
    [substr] is found at [len(s)]. *)
Definition LastIndex (s substr : string) : Z := last_index_from s substr 0 (-1).

Fixpoint index_byte_from (s : string) (c : ascii) (i : Z) : Z :=
  match s with
  | EmptyString => -1
  | String x s' => if Ascii.eqb x c then i else index_byte_from s' c (i + 1)
  end.

(** [strings.IndexRune(s, r)] for an ASCII string [s].  The caller ranges
    over the runes of its input; a rune outside ASCII (or an invalid
    byte, read as U+FFFD) is made of bytes above 0x7F only and is found
    in no ASCII string, so looking up each byte gives the same answer at
    the same position. *)
Definition IndexRune (s : string) (r : ascii) : Z := index_byte_from s r 0.

Fixpoint take (n : nat) (s : string) : string :=
  match n, s with
  | S n', String c s' => String c (take n' s')
  | _, _ => EmptyString
  end.

Fixpoint drop (n : nat) (s : string) : string :=
  match n, s with
  | S n', String _ s' => drop n' s'
  | _, _ => s
  end.

(** [s[:i]] and [s[i:]]; [None] is the run-time panic "slice bounds out
    of range". *)
Definition slice_to (s : string) (i : Z) : option string :=
  if (0 <=? i) && (i <=? len s) then Some (take (Z.to_nat i) s) else None.

Definition slice_from (s : string) (i : Z) : option string :=
  if (0 <=? i) && (i <=? len s) then Some (drop (Z.to_nat i) s) else None.

Fixpoint mem (c : ascii) (cutset : string) : bool :=
  match cutset with
  | EmptyString => false
  | String x cutset' => Ascii.eqb x c || mem c cutset'
  end.

(** [strings.TrimRight(s, cutset)] for an ASCII [cutset]. *)
Fixpoint TrimRight (s cutset : string) : string :=
  match s with
  | EmptyString => EmptyString
  | String c s' =>
      match TrimRight s' cutset with
      | EmptyString => if mem c cutset then EmptyString else String c EmptyString
      | t => String c t
      end
  end.

Fixpoint repeat_nat (s : string) (count : nat) : string :=
  match count with
  | O => EmptyString
  | S count' => s +:+ repeat_nat s count'
  end.

(** [strings.Repeat(s, count)] (it panics on a negative count). *)
Definition Repeat (s : string) (count : Z) : string := repeat_nat s (Z.to_nat count).

End GoStrings.

(** ** Base 62 (signer.go) *)

Definition base62Alphabet : string :=
  "0123456789ABCDEFGHIJKLMNOPQRSTUVWXYZabcdefghijklmnopqrstuvwxyz".

(** [base62Alphabet[i]]; the only caller indexes with [n % 62] for a
    positive [n], which is in range. *)
Definition base62Alphabet_at (i : Z) : ascii :=
  match String.get (Z.to_nat i) base62Alphabet with
  | Some c => c
  | None => Ascii.zero
  end.

(** The loop [for n > 0 { ... }] of [b62Encode]; [None] when [fuel]
    iterations do not reach [n <= 0]. *)
Fixpoint b62Encode_loop (fuel : nat) (n : Z) (encoded : string) : option string :=
  if 0 <? n then
    match fuel with
    | O => None
    | S fuel' =>
        let remainder := Z.rem n 62 in
        b62Encode_loop fuel' (Z.quot n 62) (String (base62Alphabet_at remainder) encoded)
    end
  else Some encoded.

(** [b62Encode(n int64) string].  [n = -n] is an [int64] negation. *)
Definition b62Encode (n : Z) : string :=
  if n =? 0 then "0"
  else
    let sign := if n <? 0 then "-" else "" in
    let n := if n <? 0 then Int64.wrap (- n) else n in
    match b62Encode_loop 64 n "" with
    | Some encoded => sign +:+ encoded
    | None => sign
    end.

(** The loop [for _, char := range s { ... }] of [b62Decode]. *)
Fixpoint b62Decode_loop (s : string) (decoded : Z) : result Z :=
  match s with
  | EmptyString => Ok decoded
  | String char s' =>
      let index := GoStrings.IndexRune base62Alphabet char in
      if index =? -1 then Err Errorf_base62_character
      else b62Decode_loop s' (Int64.wrap (decoded * 62 + index))
  end.

(** [b62Decode(s string) (int64, error)]. *)
Definition b62Decode (s : string) : result Z :=
  if String.eqb s "0" then Ok 0
  else
    let '(s, sign) :=
      match s with
      | String "-"%char s' => (s', -1)
      | _ => (s, 1)
      end in
    decoded ← b62Decode_loop s 0;
    Ok (Int64.wrap (sign * decoded)).

(** ** Bytes *)

Definition Z_of_byte (b : byte) : Z := Z.of_N (Byte.to_N b).

Definition byte_of_Z (z : Z) : byte :=
  match Byte.of_N (Z.to_N (z mod 256)) with
  | Some b => b
  | None => x00
  end.

(** The conversions [[]byte(s)] and [string(b)]. *)
Definition bytes_of_string (s : string) : list byte := list_byte_of_string s.
Definition string_of_bytes (b : list byte) : string := string_of_list_byte b.

(** ** [crypto/sha256] and [crypto/hmac]

    SHA-256 as FIPS 180-4 defines it, on 32-bit words held in [Z], and
    HMAC as RFC 2104 defines it over SHA-256 (block size 64). *)

Module SHA256.

Definition w32 (z : Z) : Z := z mod 2 ^ 32.
Definition add32 (x y : Z) : Z := w32 (x + y).
Definition rotr (n x : Z) : Z := Z.lor (Z.shiftr x n) (w32 (Z.shiftl x (32 - n))).
Definition not32 (x : Z) : Z := Z.lxor x 0xffffffff.

Definition Ch (x y z : Z) : Z := Z.lxor (Z.land x y) (Z.land (not32 x) z).
Definition Maj (x y z : Z) : Z :=
  Z.lxor (Z.lxor (Z.land x y) (Z.land x z)) (Z.land y z).
Definition Sigma0 (x : Z) : Z := Z.lxor (Z.lxor (rotr 2 x) (rotr 13 x)) (rotr 22 x).
Definition Sigma1 (x : Z) : Z := Z.lxor (Z.lxor (rotr 6 x) (rotr 11 x)) (rotr 25 x).
Definition sigma0 (x : Z) : Z := Z.lxor (Z.lxor (rotr 7 x) (rotr 18 x)) (Z.shiftr x 3).
Definition sigma1 (x : Z) : Z := Z.lxor (Z.lxor (rotr 17 x) (rotr 19 x)) (Z.shiftr x 10).

Definition K : list Z :=
     [ 0x428a2f98; 0x71374491; 0xb5c0fbcf; 0xe9b5dba5;
       0x3956c25b; 0x59f111f1; 0x923f82a4; 0xab1c5ed5 ]
  ++ [ 0xd807aa98; 0x12835b01; 0x243185be; 0x550c7dc3;
       0x72be5d74; 0x80deb1fe; 0x9bdc06a7; 0xc19bf174 ]
  ++ [ 0xe49b69c1; 0xefbe4786; 0x0fc19dc6; 0x240ca1cc;
       0x2de92c6f; 0x4a7484aa; 0x5cb0a9dc; 0x76f988da ]
  ++ [ 0x983e5152; 0xa831c66d; 0xb00327c8; 0xbf597fc7;
       0xc6e00bf3; 0xd5a79147; 0x06ca6351; 0x14292967 ]
  ++ [ 0x27b70a85; 0x2e1b2138; 0x4d2c6dfc; 0x53380d13;
       0x650a7354; 0x766a0abb; 0x81c2c92e; 0x92722c85 ]
  ++ [ 0xa2bfe8a1; 0xa81a664b; 0xc24b8b70; 0xc76c51a3;
       0xd192e819; 0xd6990624; 0xf40e3585; 0x106aa070 ]
  ++ [ 0x19a4c116; 0x1e376c08; 0x2748774c; 0x34b0bcb5;
       0x391c0cb3; 0x4ed8aa4a; 0x5b9cca4f; 0x682e6ff3 ]
  ++ [ 0x748f82ee; 0x78a5636f; 0x84c87814; 0x8cc70208;
       0x90befffa; 0xa4506ceb; 0xbef9a3f7; 0xc67178f2 ].

Record state : Type := State { sa : Z; sb : Z; sc : Z; sd : Z; se : Z; sf : Z; sg : Z; sh : Z }.

Definition H0 : state :=
  State 0x6a09e667 0xbb67ae85 0x3c6ef372 0xa54ff53a
        0x510e527f 0x9b05688c 0x1f83d9ab 0x5be0cd19.

(** The message schedule, most recent word first. *)
Definition schedule_step (ws : list Z) : list Z :=
  let w i := nth i ws 0 in
  add32 (add32 (sigma1 (w 1%nat)) (w 6%nat)) (add32 (sigma0 (w 14%nat)) (w 15%nat)) :: ws.

Definition schedule (block : list Z) : list Z :=
  rev (Nat.iter 48 schedule_step (rev block)).

Definition round (s : state) (kw : Z * Z) : state :=
  let t1 := add32 (add32 (add32 (sh s) (Sigma1 (se s))) (Ch (se s) (sf s) (sg s)))
                  (add32 (fst kw) (snd kw)) in
  let t2 := add32 (Sigma0 (sa s)) (Maj (sa s) (sb s) (sc s)) in
  State (add32 t1 t2) (sa s) (sb s) (sc s) (add32 (sd s) t1) (se s) (sf s) (sg s).

Definition compress (h : state) (block : list Z) : state :=
  let s := fold_left round (combine K (schedule block)) h in
  State (add32 (sa h) (sa s)) (add32 (sb h) (sb s)) (add32 (sc h) (sc s))
        (add32 (sd h) (sd s)) (add32 (se h) (se s)) (add32 (sf h) (sf s))
        (add32 (sg h) (sg s)) (add32 (sh h) (sh s)).

(** Big-endian 32-bit words of a byte sequence whose length is a multiple of 4. *)
Fixpoint words (bs : list Z) : list Z :=
  match bs with
  | b0 :: b1 :: b2 :: b3 :: bs' =>
      (b0 * 2 ^ 24 + b1 * 2 ^ 16 + b2 * 2 ^ 8 + b3) :: words bs'
  | _ => []
  end.

Definition be_bytes (n : nat) (z : Z) : list Z :=
  map (fun i => Z.shiftr z (8 * Z.of_nat i) mod 256) (rev (seq 0 n)).

Definition pad (msg : list Z) : list Z :=
  let l := Z.of_nat (length msg) in
  let k := (55 - l) mod 64 in
  msg ++ 0x80 :: repeat 0 (Z.to_nat k) ++ be_bytes 8 (8 * l).

Fixpoint blocks (fuel : nat) (ws : list Z) (h : state) : state :=
  match fuel, ws with
  | S fuel', _ :: _ => blocks fuel' (skipn 16 ws) (compress h (firstn 16 ws))
  | _, _ => h
  end.

Definition digest (h : state) : list Z :=
  flat_map (be_bytes 4) [sa h; sb h; sc h; sd h; se h; sf h; sg h; sh h].

(** [sha256.Sum256(msg)], also [h := sha256.New(); h.Write(msg); h.Sum(nil)]. *)
Definition Sum (msg : list byte) : list byte :=
  let ws := words (pad (map Z_of_byte msg)) in
  map byte_of_Z (digest (blocks (length ws) ws H0)).

Definition BlockSize : Z := 64.

End SHA256.

Module HMAC.

Definition xor_pad (p : Z) (key : list byte) : list byte :=
  map (fun b => byte_of_Z (Z.lxor (Z_of_byte b) p)) key.

(** [mac := hmac.New(sha256.New, key); mac.Write(msg); mac.Sum(nil)]. *)
Definition SHA256 (key msg : list byte) : list byte :=
  let key := if SHA256.BlockSize <? Z.of_nat (length key) then SHA256.Sum key else key in
  let key := key ++ repeat x00 (Z.to_nat SHA256.BlockSize - length key) in
  SHA256.Sum (xor_pad 0x5c key ++ SHA256.Sum (xor_pad 0x36 key ++ msg)).

End HMAC.

(** ** [encoding/base64], URL alphabet *)

Module Base64.

Definition encodeURL : string :=
  "ABCDEFGHIJKLMNOPQRSTUVWXYZabcdefghijklmnopqrstuvwxyz0123456789-_".

Definition StdPadding : ascii := "="%char.

Definition enc (i : Z) : ascii :=
  match String.get (Z.to_nat i) encodeURL with
  | Some c => c
  | None => StdPadding
  end.

(** The decoding table: the index of a character of the alphabet. *)
Definition dec (c : ascii) : option Z :=
  let i := GoStrings.index_byte_from encodeURL c 0 in
  if i =? -1 then None else Some i.

(** [base64.URLEncoding.EncodeToString]: three bytes make a 24-bit value
    and four characters; a tail of one or two bytes is padded. *)
Fixpoint EncodeToString (src : list byte) : string :=
  match src with
  | [] => ""
  | [b0] =>
      let val := Z_of_byte b0 * 2 ^ 16 in
      String (enc (val / 2 ^ 18 mod 64)) (String (enc (val / 2 ^ 12 mod 64))
        (String StdPadding (String StdPadding "")))
  | [b0; b1] =>
      let val := Z_of_byte b0 * 2 ^ 16 + Z_of_byte b1 * 2 ^ 8 in
      String (enc (val / 2 ^ 18 mod 64)) (String (enc (val / 2 ^ 12 mod 64))
        (String (enc (val / 2 ^ 6 mod 64)) (String StdPadding "")))
  | b0 :: b1 :: b2 :: src' =>
      let val := Z_of_byte b0 * 2 ^ 16 + Z_of_byte b1 * 2 ^ 8 + Z_of_byte b2 in
      String (enc (val / 2 ^ 18 mod 64)) (String (enc (val / 2 ^ 12 mod 64))
        (String (enc (val / 2 ^ 6 mod 64)) (String (enc (val mod 64))
          (EncodeToString src'))))
  end.

(** The decoder ignores carriage returns and line feeds. *)
Fixpoint strip_newlines (s : string) : string :=
  match s with
  | EmptyString => EmptyString
  | String c s' =>
      if Ascii.eqb c "010"%char || Ascii.eqb c "013"%char then strip_newlines s'
      else String c (strip_newlines s')
  end.

(** Quanta of four characters; padding is accepted in the last quantum
    only, as [xx==] or [xxx=], and the bits that do not fill a byte are
    dropped ([URLEncoding] is not strict). *)
Fixpoint decode_quanta (s : string) : option (list byte) :=
  match s with
  | EmptyString => Some []
  | String c0 (String c1 (String c2 (String c3 s'))) =>
      v0 ← dec c0; v1 ← dec c1;
      if Ascii.eqb c3 StdPadding then
        match s' with
        | EmptyString =>
            if Ascii.eqb c2 StdPadding then
              let val := v0 * 2 ^ 18 + v1 * 2 ^ 12 in
              Some [byte_of_Z (val / 2 ^ 16)]
            else
              v2 ← dec c2;
              let val := v0 * 2 ^ 18 + v1 * 2 ^ 12 + v2 * 2 ^ 6 in
              Some [byte_of_Z (val / 2 ^ 16); byte_of_Z (val / 2 ^ 8)]
        | _ => None
        end
      else
        v2 ← dec c2; v3 ← dec c3;
        let val := v0 * 2 ^ 18 + v1 * 2 ^ 12 + v2 * 2 ^ 6 + v3 in
        rest ← decode_quanta s';
        Some (byte_of_Z (val / 2 ^ 16) :: byte_of_Z (val / 2 ^ 8) :: byte_of_Z val :: rest)
  | _ => None
  end.

(** [base64.URLEncoding.DecodeString]; [None] is a [CorruptInputError]. *)
Definition DecodeString (s : string) : option (list byte) :=
  decode_quanta (strip_newlines s).

End Base64.

(** [b64Decode]: URL-safe base64 "with padding handling". *)
Definition b64Decode (s : string) : result (list byte) :=
  let padding := Z.rem (4 - Z.rem (GoStrings.len s) 4) 4 in
  let padded := s +:+ GoStrings.Repeat "=" padding in
  match Base64.DecodeString padded with
  | Some data => Ok data
  | None => Err (LibraryError "encoding/base64")
  end.

(** [b64Encode]: URL-safe base64 without padding. *)
Definition b64Encode (data : list byte) : string :=
  let encoded := Base64.EncodeToString data in
  GoStrings.TrimRight encoded "=".

(** ** The [time] package

    An instant ([time.Time]) is its number of nanoseconds since the Unix
    epoch, an unbounded [Z]; a [time.Duration] is an [int64] count of
    nanoseconds.  Go keeps an instant as an [int64] of seconds since the
    year 1 and a nanosecond; [time.Unix] adds the 62135596800 seconds
    between the year 1 and 1970 with [int64] wrap-around, which [Unix]
    follows.  [Sub] is exact where the difference is a [Duration] and
    saturates otherwise, as the package documents. *)

Module GoTime.
Definition Second : Z := 1000000000.

(** The seconds from the year 1 to the Unix epoch. *)
Definition unixToInternal : Z := 62135596800.

(** [time.Unix(sec, nsec)]: a nanosecond outside [0, 1e9) is carried into
    the seconds first; the seconds since the year 1 are an [int64]. *)
Definition Unix (sec nsec : Z) : Z :=
  let '(sec, nsec) :=
    if (nsec <? 0) || (Second <=? nsec) then
      let n := Z.quot nsec Second in
      let sec := Int64.wrap (sec + n) in
      let nsec := nsec - n * Second in
      if nsec <? 0 then (Int64.wrap (sec - 1), nsec + Second) else (sec, nsec)
    else (sec, nsec) in
  (Int64.wrap (sec + unixToInternal) - unixToInternal) * Second + nsec.

(** [t.Unix()]: whole seconds since the epoch, an [int64]. *)
Definition Unix_of (t : Z) : Z := Int64.wrap (t / Second).

Definition saturate (d : Z) : Z := Z.max Int64.min (Z.min Int64.max d).

(** [t.Sub(u)]. *)
Definition Sub (t u : Z) : Z := saturate (t - u).

(** [time.Since(u)] when the clock reads [now]. *)
Definition Since (now u : Z) : Z := Sub now u.

(** [t.After(u)]. *)
Definition After (t u : Z) : bool := u <? t.
End GoTime.

(** ** Dynamic values

    The values an [interface{}] holds in a session map: the untyped [nil],
    [bool], [string], [int], [float64], [[]interface{}] and
    [map[string]interface{}].  A [float64] is a [spec_float] of the
    Standard Library (sign, 53-bit mantissa, exponent). *)
Inductive value : Type :=
  | VNil
  | VBool (b : bool)
  | VString (s : string)
  | VInt (n : Z)
  | VFloat64 (f : spec_float)
  | VSlice (l : list value)
  | VMap (m : gmap string value).

(** A [map[string]interface{}]: the nil map, or an allocated map.  Reading
    and ranging over the nil map behave as on an empty map, [delete] does
    nothing on it, and assigning to an entry of it panics. *)
Inductive gomap : Type :=
  | NilMap
  | Map (m : gmap string value).

Definition entries (g : gomap) : gmap string value :=
  match g with
  | NilMap => ∅
  | Map m => m
  end.

(** [g[key] = v]. *)
Definition map_assign (key : string) (v : value) (g : gomap) : result gomap :=
  match g with
  | NilMap => Panic
  | Map m => Ok (Map (<[key := v]> m))
  end.

(** [delete(g, key)]. *)
Definition map_delete (key : string) (g : gomap) : gomap :=
  match g with
  | NilMap => NilMap
  | Map m => Map (delete key m)
  end.

(** ** [compress/zlib] and [encoding/json] as interfaces *)

Inductive zlib_outcome : Type :=
  | Inflated (data : list byte)
  | ZlibHeaderError        (* [zlib.NewReader] fails *)
  | ZlibReadError.         (* [io.ReadAll] fails *)

(** [zlib_compress data] is what [zlib.NewWriter(&buf)] leaves in [buf]
    after [Write(data)] and [Close()] (writing to a [bytes.Buffer] does not
    fail); [zlib_decompress] is [zlib.NewReader] followed by [io.ReadAll]. *)
Class Zlib : Type := {
  zlib_compress : list byte → list byte;
  zlib_decompress : list byte → zlib_outcome;
}.

(** [json.Marshal] of a map and [json.Unmarshal] into a nil
    [map[string]interface{}] variable; [None] is an error. *)
Class JSON : Type := {
  json_Marshal : gomap → option (list byte);
  json_Unmarshal : list byte → option gomap;
}.

(** ** The [fmt] verbs used on identities *)

(** [fmt.Sprintf("%d", n)]. *)
Definition fmt_d (n : Z) : string :=
  (if n <? 0 then "-" else "") +:+ pretty (Z.to_N (Z.abs n)).

(** The integer nearest to [m * 2^e], ties to even. *)
Definition round_half_even (m e : Z) : Z :=
  if 0 <=? e then m * 2 ^ e
  else
    let d := 2 ^ (- e) in
    let q := m / d in
    let r := m mod d in
    if 2 * r <? d then q
    else if d <? 2 * r then q + 1
    else if Z.even q then q else q + 1.

(** [fmt.Sprintf("%.0f", f)]: the exact decimal expansion rounded to no
    fractional digit, ties to even; never an exponent. *)
Definition fmt_f0 (f : spec_float) : string :=
  match f with
  | S754_nan => "NaN"
  | S754_infinity s => if s then "-Inf" else "+Inf"
  | S754_zero s => if s then "-0" else "0"
  | S754_finite s m e =>
      (if s then "-" else "") +:+ pretty (Z.to_N (round_half_even (Z.pos m) e))
  end.

(** The name [%T] prints for the dynamic type of a value. *)
Definition fmt_T (v : value) : string :=
  match v with
  | VNil => "<nil>"
  | VBool _ => "bool"
  | VString _ => "string"
  | VInt _ => "int"
  | VFloat64 _ => "float64"
  | VSlice _ => "[]interface {}"
  | VMap _ => "map[string]interface {}"
  end.

(** ** The signer (signer.go) *)

Record DjangoSigner : Type := {
  SecretKey : string;
  Salt : string;
  Sep : string;
  Algorithm : string;
}.

Definition NewDjangoSigner (secretKey : string) : DjangoSigner :=
  {| SecretKey := secretKey;
     Salt := "django.core.signing";
     Sep := ":";
     Algorithm := "sha256" |}.

Definition saltedHMAC (ds : DjangoSigner) (salt value : string) : list byte :=
  let derivedKey := SHA256.Sum (bytes_of_string (salt +:+ SecretKey ds)) in
  HMAC.SHA256 derivedKey (bytes_of_string value).

Definition signature (ds : DjangoSigner) (value : string) : string :=
  let hashBytes := saltedHMAC ds (Salt ds +:+ "signer") value in
  b64Encode hashBytes.

(** [hmac.Equal([]byte(a), []byte(b))]: equality of the two byte sequences. *)
Definition constantTimeCompare (a b : string) : bool := String.eqb a b.

Definition Unsign (ds : DjangoSigner) (signedValue : string) : result string :=
  if negb (GoStrings.Contains signedValue (Sep ds)) then
    Err (New "no separator found in value")
  else
    let lastSepIndex := GoStrings.LastIndex signedValue (Sep ds) in
    value ← or_panic (GoStrings.slice_to signedValue lastSepIndex);
    sig ← or_panic (GoStrings.slice_from signedValue (lastSepIndex + 1));
    let expectedSig := signature ds value in
    if negb (constantTimeCompare sig expectedSig) then
      Err (New "signature does not match")
    else Ok value.

(** [maxAge] is the [*time.Duration] argument: [None] for [nil]. *)
Definition UnsignTimestamp (ds : DjangoSigner) (now : Z) (signedValue : string)
    (maxAge : option Z) : result string :=
  result ← Unsign ds signedValue;
  if negb (GoStrings.Contains result (Sep ds)) then
    Err (New "no timestamp separator found")
  else
    let lastSepIndex := GoStrings.LastIndex result (Sep ds) in
    value ← or_panic (GoStrings.slice_to result lastSepIndex);
    timestampStr ← or_panic (GoStrings.slice_from result (lastSepIndex + 1));
    match b62Decode timestampStr with
    | Err err => Err (Errorf_w "invalid timestamp" err)
    | Panic => Panic
    | Ok timestamp =>
        match maxAge with
        | Some maxAge =>
            let age := GoTime.Since now (GoTime.Unix timestamp 0) in
            if maxAge <? age then Err (Errorf_signature_age age maxAge)
            else Ok value
        | None => Ok value
        end
    end.

Definition SignTimestamp (ds : DjangoSigner) (now : Z) (value : string) : string :=
  let timestamp := GoTime.Unix_of now in
  let timestampB62 := b62Encode timestamp in
  let valueWithTimestamp := value +:+ Sep ds +:+ timestampB62 in
  let sig := signature ds valueWithTimestamp in
  valueWithTimestamp +:+ Sep ds +:+ sig.

Section Signer.
Context `{!Zlib, !JSON}.

Definition SignObject (ds : DjangoSigner) (now : Z) (obj : gomap) (compress : bool)
    : result string :=
  match json_Marshal obj with
  | None => Err (Errorf_w "json encode error" (LibraryError "encoding/json"))
  | Some jsonData =>
      let '(dataToEncode, prefix) :=
        if compress then (zlib_compress jsonData, ".")
        else (jsonData, "") in
      let base64Data := prefix +:+ b64Encode dataToEncode in
      Ok (SignTimestamp ds now base64Data)
  end.

Definition UnsignObject (ds : DjangoSigner) (now : Z) (signedObj : string)
    (maxAge : option Z) : result gomap :=
  base64Data ← UnsignTimestamp ds now signedObj maxAge;
  let '(decompress, base64Data) :=
    match base64Data with
    | String "."%char rest => (true, rest)
    | _ => (false, base64Data)
    end in
  match b64Decode base64Data with
  | Err err => Err (Errorf_w "base64 decode error" err)
  | Panic => Panic
  | Ok data =>
      data ← (if decompress then
                match zlib_decompress data with
                | ZlibHeaderError =>
                    Err (Errorf_w "zlib decompress error" (LibraryError "compress/zlib"))
                | ZlibReadError =>
                    Err (Errorf_w "zlib read error" (LibraryError "compress/zlib"))
                | Inflated decompressed => Ok decompressed
                end
              else Ok data);
      match json_Unmarshal data with
      | None => Err (Errorf_w "json decode error" (LibraryError "encoding/json"))
      | Some result => Ok result
      end
  end.

(** *** Session helpers *)

Definition sessionSigner (secretKey salt : string) : DjangoSigner :=
  {| SecretKey := secretKey; Salt := salt; Sep := ":"; Algorithm := "sha256" |}.

(** The lookup of ["_auth_user_id"] and the type switch that end both
    [DecodeSessionDataWithSalt] and [Client.decodeSessionData]. *)
Definition userIDOf (sessionMap : gomap) : result string :=
  match entries sessionMap !! "_auth_user_id" with
  | None => Err (New "_auth_user_id not found in session")
  | Some userID =>
      match userID with
      | VString v => Ok v
      | VFloat64 v => Ok (fmt_f0 v)
      | VInt v => Ok (fmt_d v)
      | v => Err (Errorf_user_ID_type (fmt_T v))
      end
  end.

Definition DecodeSessionDataWithSalt (now : Z) (sessionData secretKey salt : string)
    (maxAgeSeconds : Z) : result string :=
  let signer := sessionSigner secretKey salt in
  let unsigned :=
    if 0 <? maxAgeSeconds then
      let maxAge := Int64.wrap (maxAgeSeconds * GoTime.Second) in
      UnsignObject signer now sessionData (Some maxAge)
    else UnsignObject signer now sessionData None in
  match unsigned with
  | Err err => Err (Errorf_w "failed to unsign session" err)
  | Panic => Panic
  | Ok sessionMap => userIDOf sessionMap
  end.

Definition DecodeSessionDataWithMaxAge (now : Z) (sessionData secretKey : string)
    (maxAgeSeconds : Z) : result string :=
  DecodeSessionDataWithSalt now sessionData secretKey
    "django.contrib.sessions.SessionStore" maxAgeSeconds.

Definition DecodeSessionData (now : Z) (sessionData secretKey : string) : result string :=
  DecodeSessionDataWithMaxAge now sessionData secretKey 0.

(** The map [EncodeSessionDataWithSalt] signs: a fresh map holding the
    user ID, then every entry of [additionalData] assigned in turn. *)
Definition encodedSession (userID : string) (additionalData : gomap)
    : gmap string value :=
  let sessionData := <["_auth_user_id" := VString userID]> ∅ in
  map_fold (fun key value sessionData => <[key := value]> sessionData)
           sessionData (entries additionalData).

Definition EncodeSessionDataWithSalt (now : Z) (userID secretKey salt : string)
    (additionalData : gomap) (compress : bool) : result string :=
  let signer := sessionSigner secretKey salt in
  SignObject signer now (Map (encodedSession userID additionalData)) compress.

Definition EncodeSessionData (now : Z) (userID secretKey : string)
    (additionalData : gomap) : result string :=
  EncodeSessionDataWithSalt now userID secretKey
    "django.contrib.sessions.SessionStore" additionalData true.

(** The loop of [UpdateSessionDataWithSalt] over [updates]. *)
Definition applyUpdates (existingData updates : gomap) : result gomap :=
  map_fold (fun key value acc =>
              existingData ← acc;
              match value with
              | VNil => Ok (map_delete key existingData)
              | _ => map_assign key value existingData
              end)
           (Ok existingData) (entries updates).

Definition UpdateSessionDataWithSalt (now : Z) (sessionData secretKey salt : string)
    (updates : gomap) (compress : bool) : result string :=
  let signer := sessionSigner secretKey salt in
  match UnsignObject signer now sessionData None with
  | Err err => Err (Errorf_w "failed to decode existing session" err)
  | Panic => Panic
  | Ok existingData =>
      existingData ← applyUpdates existingData updates;
      SignObject signer now existingData compress
  end.

Definition UpdateSessionData (now : Z) (sessionData secretKey : string)
    (updates : gomap) : result string :=
  UpdateSessionDataWithSalt now sessionData secretKey
    "django.contrib.sessions.SessionStore" updates true.

End Signer.

(** ** The client (client.go) *)

Record RawSession : Type := {
  SessionKey : string;
  SessionData : string;
  ExpireDate : Z;
}.

(** The store behind [DBTX]: [QueryRow(ctx, query, arg).Scan(...)] fills the
    three fields of a [RawSession] or returns an error ([pgx.ErrNoRows],
    possibly wrapped, when no row matches). *)
Inductive scan_outcome : Type :=
  | Scanned (session : RawSession)
  | ScanError (err : error).

Record DBTX : Type := { QueryRowScan : string → string → scan_outcome }.

Record ClientConfig : Type := {
  DB : option DBTX;
  ConfigSecretKey : string;
  SessionCookieName : string;
  MaxAge : Z;
}.

(** A client as [NewClient] builds it: the receiver is not nil and holds a
    store, which answers a query with a row or with an error. *)
Record Client : Type := {
  db : DBTX;
  secretKey : string;
  sessionCookieName : string;
  maxAge : Z;
  signer : DjangoSigner;
}.

Definition NewClient (config : ClientConfig) : result Client :=
  match DB config with
  | None => Err (New "database connection is required")
  | Some db =>
      if String.eqb (ConfigSecretKey config) "" then Err (New "secret key is required")
      else
        let name :=
          if String.eqb (SessionCookieName config) "" then "sessionid"
          else SessionCookieName config in
        Ok {| db := db;
              secretKey := ConfigSecretKey config;
              sessionCookieName := name;
              maxAge := MaxAge config;
              signer := {| SecretKey := ConfigSecretKey config;
                           Salt := "django.contrib.sessions.SessionStore";
                           Sep := ":";
                           Algorithm := "sha256" |} |}
  end.

(** What a method of the client does besides returning: the queries it
    sends to the store and the payloads it hands to the signer, in order. *)
Inductive event : Type :=
  | StoreQuery (query sessionKey : string)
  | SignerCall (payload : string).

(** The query of [GetRawSession], a raw string of three lines; the second
    and the third start with a tab. *)
Definition sessionQuery : string :=
  Eval vm_compute in
    "SELECT session_key, session_data, expire_date "
    +:+ String "010" (String "009" "          FROM django_session ")
    +:+ String "010" (String "009" "          WHERE session_key = $1").

(** [GetRawSession]; [now] is the reading of [time.Now()] after the query. *)
Definition GetRawSession (c : Client) (now : Z) (sessionKey : string)
    : list event * result RawSession :=
  if String.eqb sessionKey "" || (255 <? GoStrings.len sessionKey) then
    ([], Err ErrSessionNotFound)
  else
    let trace := [StoreQuery sessionQuery sessionKey] in
    match QueryRowScan (db c) sessionQuery sessionKey with
    | ScanError err =>
        if errors_Is err pgx_ErrNoRows then (trace, Err ErrSessionNotFound)
        else (trace, Err (Errorf_w "database query failed" err))
    | Scanned session =>
        if GoTime.After now (ExpireDate session) then (trace, Err ErrSessionExpired)
        else (trace, Ok session)
    end.

Section ClientDecode.
Context `{!Zlib, !JSON}.

Definition decodeSessionData (c : Client) (now : Z) (sessionData : string)
    : list event * result string :=
  let unsigned :=
    if 0 <? maxAge c then UnsignObject (signer c) now sessionData (Some (maxAge c))
    else UnsignObject (signer c) now sessionData None in
  ([SignerCall sessionData], sessionMap ← unsigned; userIDOf sessionMap).

Definition DecodeSessionUserID (c : Client) (now : Z) (sessionData : string)
    : list event * result string :=
  decodeSessionData c now sessionData.

End ClientDecode.

(** ** The middleware (middleware.go)

    A handler acts on its [*gin.Context]: it reads a request cookie and
    calls [Redirect], [Abort], [Set] and [Next].  The request is what
    [c.Cookie] answers; what the handler does is the sequence of its calls,
    together with the events of the client it uses. *)

(** [c.Cookie(name)]: the value of the cookie, or [None] for the error
    [http.ErrNoCookie]. *)
Record ginContext : Type := { Cookie : string → option string }.

Inductive gin_event : Type :=
  | ClientEvent (e : event)
  | OnErrorCall (err : error)                    (* [config.OnError(c, err)] *)
  | CtxRedirect (code : Z) (location : string)   (* [c.Redirect(code, location)] *)
  | CtxAbort                                     (* [c.Abort()] *)
  | CtxSet (key : string) (session : RawSession) (* [c.Set(key, rawSession)] *)
  | CtxNext.                                     (* [c.Next()] *)

(** How a handler ends: it returns, or it panics. *)
Inductive completion : Type :=
  | Returns
  | Panics.

(** [MwClient] and [MwSessionKey] are the fields [Client] and [SessionKey];
    [MwClient] is a pointer, [None] when nil.  [OnError] tells whether the
    field holds a function; calling it is the event [OnErrorCall]. *)
Record MiddlewareConfig : Type := {
  MwClient : option Client;
  LoginRedirectURL : string;
  MwSessionKey : string;
  OnError : bool;
}.

(** [getSessionFromCookie]; the method [SessionCookieName] reads the field
    [sessionCookieName] of its receiver, which panics on a nil client. *)
Definition getSessionFromCookie (c : ginContext) (now : Z) (config : MiddlewareConfig)
    : list event * result RawSession :=
  match MwClient config with
  | None => ([], Panic)
  | Some client =>
      match Cookie c (sessionCookieName client) with
      | None => ([], Err (New "no session cookie"))
      | Some sessionID =>
          if String.eqb sessionID "" then ([], Err (New "no session cookie"))
          else GetRawSession client now sessionID
      end
  end.

Definition setConfigDefaults (config : MiddlewareConfig) : MiddlewareConfig :=
  {| MwClient := MwClient config;
     LoginRedirectURL :=
       if String.eqb (LoginRedirectURL config) "" then "/account/login"
       else LoginRedirectURL config;
     MwSessionKey :=
       if String.eqb (MwSessionKey config) "" then "django_session"
       else MwSessionKey config;
     OnError := OnError config |}.

(** [http.StatusFound]. *)
Definition StatusFound : Z := 302.

(** A handler, run on a request when the clock reads [now]. *)
Definition HandlerFunc : Type := ginContext → Z → list gin_event * completion.

Definition AuthMiddleware (config : MiddlewareConfig) : HandlerFunc :=
  let config := setConfigDefaults config in
  fun c now =>
    match getSessionFromCookie c now config with
    | (trace, Panic) => (ClientEvent <$> trace, Panics)
    | (trace, Err err) =>
        ((ClientEvent <$> trace)
           ++ [(if OnError config then OnErrorCall err
                else CtxRedirect StatusFound (LoginRedirectURL config));
               CtxAbort],
         Returns)
    | (trace, Ok rawSession) =>
        ((ClientEvent <$> trace) ++ [CtxSet (MwSessionKey config) rawSession; CtxNext],
         Returns)
    end.

Definition OptionalAuthMiddleware (config : MiddlewareConfig) : HandlerFunc :=
  let config := setConfigDefaults config in
  fun c now =>
    match getSessionFromCookie c now config with
    | (trace, Panic) => (ClientEvent <$> trace, Panics)
    | (trace, Err _) => ((ClientEvent <$> trace) ++ [CtxNext], Returns)
    | (trace, Ok rawSession) =>
        ((ClientEvent <$> trace) ++ [CtxSet (MwSessionKey config) rawSession; CtxNext],
         Returns)
    end.

(** The request carries, in the client's cookie, the identifier
    [sessionID] of a record [r] of the store that has not expired at
    [now]. *)
Definition valid_session (client : Client) (c : ginContext) (now : Z)
    (sessionID : string) (r : RawSession) : Prop :=
  Cookie c (sessionCookieName client) = Some sessionID
  ∧ sessionID ≠ "" ∧ GoStrings.len sessionID <= 255
  ∧ QueryRowScan (db client) sessionQuery sessionID = Scanned r
  ∧ now <= ExpireDate r.

(** The context key and the redirect target after [setConfigDefaults]. *)
Definition contextKey (config : MiddlewareConfig) : string :=
  if decide (MwSessionKey config = "") then "django_session" else MwSessionKey config.

Definition loginURL (config : MiddlewareConfig) : string :=
  if decide (LoginRedirectURL config = "") then "/account/login"
  else LoginRedirectURL config.

(** The client events of a handler's trace, and what it stored in the
    context. *)
Definition client_events (trace : list gin_event) : list event :=
  omap (λ e, match e with ClientEvent e => Some e | _ => None end) trace.

Definition stored (trace : list gin_event) : list (string * RawSession) :=
  omap (λ e, match e with CtxSet key r => Some (key, r) | _ => None end) trace.

(** ** Sample libraries

    Executable instances of the two interfaces, for running the code on
    concrete inputs.  They stand for the real packages on the inputs they
    accept and refuse the rest. *)

(** A zlib codec that only uses stored (uncompressed) deflate blocks: the
    streams it writes are valid RFC 1950 streams, and it reads back any
    stream made of stored blocks. *)
Module StoredZlib.

Definition adler32 (data : list byte) : Z :=
  let '(a, b) :=
    fold_left (fun '(a, b) x =>
                 let a' := (a + Z_of_byte x) mod 65521 in (a', (b + a') mod 65521))
              data (1, 0) in
  b * 65536 + a.

Definition le16 (n : Z) : list byte := [byte_of_Z n; byte_of_Z (n / 256)].
Definition be32 (n : Z) : list byte :=
  [byte_of_Z (n / 2 ^ 24); byte_of_Z (n / 2 ^ 16); byte_of_Z (n / 2 ^ 8); byte_of_Z n].

Fixpoint stored_blocks (fuel : nat) (data : list byte) : list byte :=
  match fuel with
  | O => []
  | S fuel' =>
      let n := Z.of_nat (length data) in
      if n <=? 65535 then x01 :: le16 n ++ le16 (65535 - n) ++ data
      else x00 :: le16 65535 ++ le16 0 ++ take (Z.to_nat 65535) data
               ++ stored_blocks fuel' (drop (Z.to_nat 65535) data)
  end.

Definition compress (data : list byte) : list byte :=
  [x78; x01] ++ stored_blocks (S (length data)) data ++ be32 (adler32 data).

Fixpoint read_blocks (fuel : nat) (stream acc : list byte) : option (list byte * list byte) :=
  match fuel, stream with
  | S fuel', hd :: l0 :: l1 :: n0 :: n1 :: rest =>
      let n := Z_of_byte l0 + 256 * Z_of_byte l1 in
      let nn := Z_of_byte n0 + 256 * Z_of_byte n1 in
      let final := Z_of_byte hd mod 2 in
      let btype := Z_of_byte hd / 2 mod 4 in
      if (btype =? 0) && (n + nn =? 65535) && (n <=? Z.of_nat (length rest)) then
        let acc := acc ++ take (Z.to_nat n) rest in
        let rest := drop (Z.to_nat n) rest in
        if final =? 1 then Some (acc, rest) else read_blocks fuel' rest acc
      else None
  | _, _ => None
  end.

Definition decompress (stream : list byte) : zlib_outcome :=
  match stream with
  | cmf :: flg :: body =>
      if (Z_of_byte cmf mod 16 =? 8) && ((256 * Z_of_byte cmf + Z_of_byte flg) mod 31 =? 0)
         && (Z_of_byte flg / 32 mod 2 =? 0) then
        match read_blocks (length body) body [] with
        | Some (data, c0 :: c1 :: c2 :: c3 :: _) =>
            if Z_of_byte c0 * 2 ^ 24 + Z_of_byte c1 * 2 ^ 16 + Z_of_byte c2 * 2 ^ 8
               + Z_of_byte c3 =? adler32 data then Inflated data
            else ZlibReadError
        | _ => ZlibReadError
        end
      else ZlibHeaderError
  | _ => ZlibHeaderError
  end.

Definition codec : Zlib :=
  {| zlib_compress := compress; zlib_decompress := decompress |}.

End StoredZlib.

(** A JSON codec for flat maps, writing and reading the compact text
    [json.Marshal] writes: keys in byte order, values that are [nil],
    booleans, [int]s, and strings of printable ASCII characters that need
    no escape.  An integer literal is read back as the nearest [float64],
    as [json.Unmarshal] reads every number into an [interface{}]. *)
Module FlatJSON.

Definition plain_char (c : ascii) : bool :=
  let n := Z.of_N (N_of_ascii c) in
  (32 <=? n) && (n <? 127)
  && negb (bool_decide (c ∈ ["034" ; "\" ; "<" ; ">" ; "&"]%char)).

Fixpoint plain (s : string) : bool :=
  match s with
  | EmptyString => true
  | String c s' => plain_char c && plain s'
  end.

Definition quote (s : string) : option string :=
  if plain s then Some (String "034"%char (s +:+ String "034"%char "")) else None.

Definition write_value (v : value) : option string :=
  match v with
  | VNil => Some "null"
  | VBool b => Some (if b then "true" else "false")
  | VString s => quote s
  | VInt n => Some (fmt_d n)
  | _ => None
  end.

Fixpoint insert_sorted (kv : string * value) (l : list (string * value))
    : list (string * value) :=
  match l with
  | [] => [kv]
  | kv' :: l' =>
      if String.leb (fst kv) (fst kv') then kv :: l else kv' :: insert_sorted kv l'
  end.

Definition sorted_entries (m : gmap string value) : list (string * value) :=
  foldr insert_sorted [] (map_to_list m).

Fixpoint write_members (l : list (string * value)) : option string :=
  match l with
  | [] => Some ""
  | (k, v) :: l' =>
      k' ← quote k; v' ← write_value v; rest ← write_members l';
      Some (k' +:+ ":" +:+ v' +:+ (if l' is [] then "" else ",") +:+ rest)
  end.

Definition Marshal (g : gomap) : option (list byte) :=
  match g with
  | NilMap => Some (bytes_of_string "null")
  | Map m =>
      body ← write_members (sorted_entries m);
      Some (bytes_of_string ("{" +:+ body +:+ "}"))
  end.

(** Reads plain characters up to the closing quote. *)
Fixpoint read_string (s : string) : option (string * string) :=
  match s with
  | EmptyString => None
  | String c s' =>
      if Ascii.eqb c "034"%char then Some ("", s')
      else if plain_char c then
        '(str, rest) ← read_string s'; Some (String c str, rest)
      else None
  end.

Definition digit (c : ascii) : option Z :=
  let n := Z.of_N (N_of_ascii c) in
  if (48 <=? n) && (n <=? 57) then Some (n - 48) else None.

Fixpoint read_digits (s : string) (acc : Z) (count : nat) : Z * nat * string :=
  match s with
  | String c s' =>
      match digit c with
      | Some d => read_digits s' (10 * acc + d) (S count)
      | None => (acc, count, s)
      end
  | EmptyString => (acc, count, s)
  end.

Definition float64_of_Z (negative : bool) (n : Z) : spec_float :=
  binary_normalize 53 1024 (if negative then - n else n) 0 negative.

(** An integer literal: an optional minus sign and digits without a
    leading zero. *)
Definition read_number (s : string) : option (value * string) :=
  let '(negative, s) :=
    match s with
    | String "-"%char s' => (true, s')
    | _ => (false, s)
    end in
  let leading_zero := if s is String "0"%char _ then true else false in
  let '(n, count, rest) := read_digits s 0 0 in
  if bool_decide (count = 0%nat) || (leading_zero && negb (bool_decide (count = 1%nat)))
  then None
  else Some (VFloat64 (float64_of_Z negative n), rest).

Definition read_value (s : string) : option (value * string) :=
  match s with
  | String "034"%char s' => '(str, rest) ← read_string s'; Some (VString str, rest)
  | _ =>
      if GoStrings.HasPrefix s "null" then Some (VNil, GoStrings.drop 4 s)
      else if GoStrings.HasPrefix s "true" then Some (VBool true, GoStrings.drop 4 s)
      else if GoStrings.HasPrefix s "false" then Some (VBool false, GoStrings.drop 5 s)
      else read_number s
  end.

(** The members after an opening brace or a comma. *)
Fixpoint read_members (fuel : nat) (s : string) (acc : gmap string value)
    : option (gmap string value) :=
  match fuel, s with
  | S fuel', String "034"%char s =>
      '(key, s) ← read_string s;
      match s with
      | String ":"%char s =>
          '(v, s) ← read_value s;
          let acc := <[key := v]> acc in
          match s with
          | String ","%char s => read_members fuel' s acc
          | String "}"%char EmptyString => Some acc
          | _ => None
          end
      | _ => None
      end
  | _, _ => None
  end.

Definition Unmarshal (data : list byte) : option gomap :=
  let s := string_of_bytes data in
  if String.eqb s "null" then Some NilMap
  else if String.eqb s "{}" then Some (Map ∅)
  else match s with
       | String "{"%char s' => Map <$> read_members (String.length s') s' ∅
       | _ => None
       end.

Definition codec : JSON :=
  {| json_Marshal := Marshal; json_Unmarshal := Unmarshal |}.

End FlatJSON.

(** ** Definitions the statements are compared with

    [base64url_nopad], [Spec.base62], [Spec.token] and [Spec.object_value]
    follow the specification's description of the codecs and of the token
    wire format rather than the code; the theorems below relate them to the
    code's [b64Encode], [b62Encode], [SignTimestamp] and [SignObject]. *)

(** Base64 with the URL alphabet, no padding character written. *)
Fixpoint base64url_nopad (src : list byte) : string :=
  match src with
  | [] => ""
  | [b0] =>
      let val := Z_of_byte b0 * 2 ^ 16 in
      String (Base64.enc (val / 2 ^ 18 mod 64)) (String (Base64.enc (val / 2 ^ 12 mod 64)) "")
  | [b0; b1] =>
      let val := Z_of_byte b0 * 2 ^ 16 + Z_of_byte b1 * 2 ^ 8 in
      String (Base64.enc (val / 2 ^ 18 mod 64)) (String (Base64.enc (val / 2 ^ 12 mod 64))
        (String (Base64.enc (val / 2 ^ 6 mod 64)) ""))
  | b0 :: b1 :: b2 :: src' =>
      let val := Z_of_byte b0 * 2 ^ 16 + Z_of_byte b1 * 2 ^ 8 + Z_of_byte b2 in
      String (Base64.enc (val / 2 ^ 18 mod 64)) (String (Base64.enc (val / 2 ^ 12 mod 64))
        (String (Base64.enc (val / 2 ^ 6 mod 64)) (String (Base64.enc (val mod 64))
          (base64url_nopad src'))))
  end.

Module Spec.

(** The digit of a value below 62: ['0'..'9'], then ['A'..'Z'], then
    ['a'..'z']. *)
Definition digit62 (d : Z) : ascii :=
  ascii_of_N (Z.to_N (if d <? 10 then 48 + d else if d <? 36 then 55 + d else 61 + d)).

(** The base-62 digits of a magnitude, most significant first. *)
Fixpoint magnitude62 (digits : nat) (n : Z) : string :=
  match digits with
  | O => ""
  | S digits' =>
      if n <? 62 then String (digit62 n) ""
      else magnitude62 digits' (n / 62) +:+ String (digit62 (n mod 62)) ""
  end.

(** [base62(n)]: zero is ["0"], and a negative number is ["-"] followed
    by its magnitude's digits.  (A number below [2 ^ k] has at most [k]
    digits.) *)
Definition base62 (n : Z) : string :=
  (if n <? 0 then "-" else "")
  +:+ magnitude62 (S (Z.to_nat (Z.log2 (Z.abs n)))) (Z.abs n).

(** [SHA256(salt ++ "signer" ++ secret)]. *)
Definition derived_key (secret salt : string) : list byte :=
  SHA256.Sum (bytes_of_string (salt +:+ "signer" +:+ secret)).

(** [value sep base62(timestamp) sep base64url_nopad(hmac_sha256(derived_key,
    value sep base62(timestamp)))]; the wire format has [sep = ":"]. *)
Definition token (sep secret salt value : string) (timestamp : Z) : string :=
  let signed := value +:+ sep +:+ base62 timestamp in
  signed +:+ sep
    +:+ base64url_nopad (HMAC.SHA256 (derived_key secret salt) (bytes_of_string signed)).

(** [["."] base64url_nopad(payload)], the marker present iff compressed. *)
Definition object_value (compressed : bool) (payload : list byte) : string :=
  (if compressed then "." else "") +:+ base64url_nopad payload.

End Spec.

(** The integer a [float64] stands for, when it stands for one. *)
Definition float64_integer (f : spec_float) : option Z :=
  match f with
  | S754_zero _ => Some 0
  | S754_finite s m e =>
      let sign := if s then -1 else 1 in
      if 0 <=? e then Some (sign * (Z.pos m * 2 ^ e))
      else if Z.pos m mod 2 ^ (- e) =? 0 then Some (sign * (Z.pos m / 2 ^ (- e)))
      else None
  | _ => None
  end.

(** The [float64] nearest to an integer, ties to even: what
    [json.Unmarshal] stores in an [interface{}] for an integer literal. *)
Definition nearest_float64 (n : Z) : spec_float := binary_normalize 53 1024 n 0 false.

Fixpoint ascii_only (s : string) : bool :=
  match s with
  | EmptyString => true
  | String c s' => (N_of_ascii c <? 128)%N && ascii_only s'
  end.

(** What a value is read back as after [json.Marshal] and [json.Unmarshal]
    into an [interface{}], for the values of which this is simply said:
    [nil], a boolean and an ASCII string come back unchanged, an [int] comes
    back as the nearest [float64]. *)
Definition json_reread (v : value) : option value :=
  match v with
  | VNil => Some VNil
  | VBool b => Some (VBool b)
  | VString s => if ascii_only s then Some (VString s) else None
  | VInt n => Some (VFloat64 (nearest_float64 n))
  | _ => None
  end.

(** The last step of [UnsignObject]: [json.Unmarshal] and its error. *)
Definition json_decoded `{!JSON} (data : list byte) : result gomap :=
  match json_Unmarshal data with
  | None => Err (Errorf_w "json decode error" (LibraryError "encoding/json"))
  | Some result => Ok result
  end.

(** ** Definitions used to state further properties *)

(** The number a string of base-62 digits denotes, starting from [acc],
    without bound; [None] when a character is no digit. *)
Fixpoint b62_value (s : string) (acc : Z) : option Z :=
  match s with
  | EmptyString => Some acc
  | String c s' =>
      let i := GoStrings.IndexRune base62Alphabet c in
      if i =? -1 then None else b62_value s' (acc * 62 + i)
  end.

(** The number an optional ["-"] followed by base-62 digits denotes. *)
Definition b62_denotes (s : string) : option Z :=
  match s with
  | String "-"%char s' => Z.opp <$> b62_value s' 0
  | _ => b62_value s 0
  end.

(** An error that neither is nor wraps one of the package's sentinels. *)
Fixpoint sentinel_free (e : error) : bool :=
  match e with
  | ErrSessionNotFound | ErrSessionExpired | ErrInvalidSignature | ErrUserNotFound => false
  | Errorf_w _ cause => sentinel_free cause
  | _ => true
  end.

Definition sentinels : list error :=
  [ErrSessionNotFound; ErrSessionExpired; ErrInvalidSignature; ErrUserNotFound].

(** ** Concrete inputs *)

Module Demo.

Definition secret : string := "s3cr3t".

Definition ds : DjangoSigner :=
  sessionSigner secret "django.contrib.sessions.SessionStore".

(** 2025-10-31 05:53:20 UTC and five nanoseconds. *)
Definition t0 : Z := GoTime.Unix 1761890000 5.

Definition session : gomap := Map {["_auth_user_id" := VString "42"]}.

(** The least integer above 2^53: it is no [float64]. *)
Definition big : Z := 9007199254740993.
Definition big_read_back : spec_float := S754_finite false 4503599627370496 1.
Definition counter : gomap := Map {["n" := VInt big]}.

(** A 64-bit identifier of the size distributed ID generators make, and
    the [float64] nearest to it, 1234567890123456768. *)
Definition snowflake : Z := 1234567890123456789.
Definition snowflake_read_back : spec_float := S754_finite false 4822530820794753 8.

(** 12345.75 as a [float64]. *)
Definition fractional : spec_float := binary_normalize 53 1024 49383 (-2) false.

(** [session] signed at [t0] with the sample codecs, compressed. *)
Definition token : string :=
  Eval vm_compute in
    match @SignObject StoredZlib.codec FlatJSON.codec ds t0 session true with
    | Ok signed => signed
    | _ => ""
    end.

(** Updates that delete the identity and set a preference. *)
Definition updates : gomap :=
  Map (<["_auth_user_id" := VNil]> {["theme" := VString "dark"]}).

Definition forged : string := "value:AAAA".

Definition row (expire : Z) : RawSession :=
  {| SessionKey := "abc"; SessionData := "payload"; ExpireDate := expire |}.

(** A store that holds one session, under the key ["abc"]. *)
Definition store (expire : Z) : DBTX :=
  {| QueryRowScan := fun _ key =>
       if String.eqb key "abc" then Scanned (row expire) else ScanError pgx_ErrNoRows |}.

Definition client (expire : Z) : Client :=
  {| db := store expire; secretKey := secret; sessionCookieName := "sessionid";
     maxAge := 0; signer := ds |}.

(** The JSON text of [session]. *)
Definition session_json : list byte :=
  Eval vm_compute in
    match FlatJSON.Marshal session with
    | Some jsonData => jsonData
    | None => []
    end.

Definition config (expire maxAge : Z) : ClientConfig :=
  {| DB := Some (store expire); ConfigSecretKey := secret;
     SessionCookieName := ""; MaxAge := maxAge |}.

(** A request whose session cookie names the record of [store]. *)
Definition request : ginContext :=
  {| Cookie := fun name => if String.eqb name "sessionid" then Some "abc" else None |}.

Definition middleware (expire : Z) : MiddlewareConfig :=
  {| MwClient := Some (client expire); LoginRedirectURL := "";
     MwSessionKey := ""; OnError := false |}.

(** A signer whose separator is a character of the base64url alphabet. *)
Definition dashed : DjangoSigner :=
  {| SecretKey := secret; Salt := "django.contrib.sessions.SessionStore";
     Sep := "-"; Algorithm := "sha256" |}.

(** Additional data that names the identity, beside a number. *)
Definition override : gomap :=
  Map (<["_auth_user_id" := VString "admin"]> {["n" := VInt 5]}).

Definition override_json : list byte :=
  Eval vm_compute in
    match FlatJSON.Marshal (Map (encodedSession "42" override)) with
    | Some jsonData => jsonData
    | None => []
    end.

End Demo.

(** * Facts about the library functions and the codecs *)

(** ** Strings *)

Module StringFacts.
Import GoStrings.

Lemma len_nonneg s : 0 <= len s.
Proof. unfold len. lia. Qed.

Lemma len_cons c s : len (String c s) = len s + 1.
Proof. unfold len. cbn [String.length]. lia. Qed.

Lemma len_app a b : len (a +:+ b) = len a + len b.
Proof.
  induction a as [|c a IH]; cbn [String.app].
  - unfold len. cbn. lia.
  - rewrite !len_cons, IH. lia.
Qed.

Lemma app_assoc (a b c : string) : (a +:+ b) +:+ c = a +:+ (b +:+ c).
Proof. induction a as [|x a IH]; cbn; [done | by rewrite IH]. Qed.

Lemma app_nil_r (a : string) : a +:+ "" = a.
Proof. induction a as [|x a IH]; cbn; [done | by rewrite IH]. Qed.

Lemma take_app a b : take (String.length a) (a +:+ b) = a.
Proof. induction a as [|c a IH]; cbn; [by destruct b | by rewrite IH]. Qed.

Lemma drop_app a b : drop (String.length a) (a +:+ b) = b.
Proof. induction a as [|c a IH]; cbn; [by destruct b | done]. Qed.

Lemma slice_to_app a b : slice_to (a +:+ b) (len a) = Some a.
Proof.
  unfold slice_to. rewrite len_app.
  pose proof (len_nonneg a). pose proof (len_nonneg b).
  rewrite (proj2 (Z.leb_le _ _)), (proj2 (Z.leb_le _ _)) by lia.
  cbn. unfold len. by rewrite Nat2Z.id, take_app.
Qed.

Lemma slice_from_app a b : slice_from (a +:+ b) (len a) = Some b.
Proof.
  unfold slice_from. rewrite len_app.
  pose proof (len_nonneg a). pose proof (len_nonneg b).
  rewrite (proj2 (Z.leb_le _ _)), (proj2 (Z.leb_le _ _)) by lia.
  cbn. unfold len. by rewrite Nat2Z.id, drop_app.
Qed.

Lemma slice_from_app_cons a c b :
  slice_from (a +:+ String c b) (len a + 1) = Some b.
Proof.
  replace (a +:+ String c b) with ((a +:+ String c "") +:+ b)
    by (rewrite app_assoc; done).
  replace (len a + 1) with (len (a +:+ String c "")).
  - apply slice_from_app.
  - rewrite len_app, len_cons. unfold len. cbn. lia.
Qed.

Lemma mem_single c x : mem c (String x "") = Ascii.eqb x c.
Proof. cbn [mem]. apply orb_false_r. Qed.

Lemma mem_app c a b : mem c (a +:+ b) = mem c a || mem c b.
Proof. induction a as [|x a IH]; cbn; [done | by rewrite IH, orb_assoc]. Qed.

(** The separator of every signer of the package is the one-character
    string [":"]; the facts below are about one-character separators. *)
Lemma HasPrefix_char c x s :
  HasPrefix (String x s) (String c "") = Ascii.eqb x c.
Proof. cbn. by rewrite andb_true_r. Qed.

Lemma last_index_absent c s i best :
  mem c s = false → last_index_from s (String c "") i best = best.
Proof.
  revert i best. induction s as [|x s IH]; intros i best Hm; [done|].
  cbn [mem] in Hm. apply orb_false_iff in Hm as [Hx Hs].
  cbn [last_index_from]. rewrite HasPrefix_char, Hx. by apply IH.
Qed.

Lemma last_index_found c v t i best :
  mem c t = false →
  last_index_from (v +:+ String c t) (String c "") i best = i + len v.
Proof.
  revert i best. induction v as [|x v IH]; intros i best Hm.
  - cbn [String.app last_index_from]. rewrite HasPrefix_char, Ascii.eqb_refl.
    rewrite last_index_absent by done. unfold len. cbn. lia.
  - cbn [String.app last_index_from]. rewrite IH by done. rewrite len_cons. lia.
Qed.

Lemma LastIndex_app c v t :
  mem c t = false → LastIndex (v +:+ String c t) (String c "") = len v.
Proof. intros. unfold LastIndex. by rewrite last_index_found. Qed.

Lemma index_from_absent c s i :
  mem c s = false → index_from s (String c "") i = -1.
Proof.
  revert i. induction s as [|x s IH]; intros i Hm; [done|].
  cbn [mem] in Hm. apply orb_false_iff in Hm as [Hx Hs].
  cbn [index_from]. rewrite HasPrefix_char, Hx. by apply IH.
Qed.

Lemma index_from_present c s i :
  mem c s = true → 0 <= i → 0 <= index_from s (String c "") i.
Proof.
  revert i. induction s as [|x s IH]; intros i Hm Hi; [done|].
  cbn [index_from]. rewrite HasPrefix_char.
  destruct (Ascii.eqb x c) eqn:Hx; [done|].
  cbn [mem] in Hm. rewrite Hx in Hm. apply IH; [done | lia].
Qed.

Lemma Contains_char c s : Contains s (String c "") = mem c s.
Proof.
  unfold Contains, Index. destruct (mem c s) eqn:Hm.
  - apply Z.leb_le. by apply index_from_present.
  - by rewrite index_from_absent.
Qed.

(** A string that contains [c] splits at its last occurrence. *)
Lemma split_last c s :
  mem c s = true → ∃ v t, s = v +:+ String c t ∧ mem c t = false.
Proof.
  induction s as [|x s IH]; intros Hm; [done|].
  destruct (mem c s) eqn:Hs.
  - destruct IH as (v & t & -> & Ht); [done|].
    by exists (String x v), t.
  - cbn [mem] in Hm. rewrite Hs, orb_false_r in Hm.
    apply Ascii.eqb_eq in Hm as ->. by exists "", s.
Qed.

Lemma app_char_inj c v t v' t' :
  mem c t = false → mem c t' = false →
  v +:+ String c t = v' +:+ String c t' → v = v' ∧ t = t'.
Proof.
  intros Ht Ht'. revert v'. induction v as [|x v IH]; intros [|x' v'] H; cbn in H.
  - by injection H.
  - injection H as -> ->. rewrite mem_app in Ht. cbn in Ht.
    rewrite Ascii.eqb_refl, orb_true_r in Ht. done.
  - injection H as -> <-. rewrite mem_app in Ht'. cbn in Ht'.
    rewrite Ascii.eqb_refl, orb_true_r in Ht'. done.
  - injection H as -> H. destruct (IH _ H) as [-> ->]. done.
Qed.

Lemma TrimRight_keep c s cutset :
  mem c cutset = false →
  TrimRight (String c s) cutset = String c (TrimRight s cutset).
Proof. intros Hc. cbn. rewrite Hc. by destruct (TrimRight s cutset). Qed.

End StringFacts.

(** ** Machine integers *)

Lemma wrap_id z : Int64.InRange z → Int64.wrap z = z.
Proof.
  unfold Int64.InRange, Int64.min, Int64.max, Int64.wrap. intros H.
  rewrite Z.mod_small; lia.
Qed.

Lemma wrap_in_range z : Int64.InRange (Int64.wrap z).
Proof.
  unfold Int64.InRange, Int64.min, Int64.max, Int64.wrap.
  pose proof (Z.mod_pos_bound (z + 2 ^ 63) (2 ^ 64)). lia.
Qed.

(** A property checked on every integer below a bound holds below it. *)
Lemma forall_below (P : Z → bool) (n : nat) :
  forallb P (map Z.of_nat (seq 0 n)) = true → ∀ z, 0 <= z < Z.of_nat n → P z = true.
Proof.
  intros H z Hz. rewrite forallb_forall in H. apply H.
  apply in_map_iff. exists (Z.to_nat z). split; [lia|].
  apply in_seq. lia.
Qed.

(** ** Base 62 *)

Module Base62Facts.
Import GoStrings StringFacts.

Definition digit_ok (r : Z) : bool :=
  let c := base62Alphabet_at r in
  (IndexRune base62Alphabet c =? r) && negb (Ascii.eqb c "-") && negb (Ascii.eqb c ":").

Lemma digits_ok r : 0 <= r < 62 → digit_ok r = true.
Proof. apply (forall_below digit_ok 62). vm_compute. reflexivity. Qed.

Lemma decode_loop_app a b d :
  b62Decode_loop (a +:+ b) d = b62Decode_loop a d ≫= b62Decode_loop b.
Proof.
  revert d. induction a as [|c a IH]; intros d; [done|].
  cbn [String.append b62Decode_loop].
  destruct (IndexRune base62Alphabet c =? -1); [done|]. apply IH.
Qed.

(** The digit loop terminates within its fuel on every non-negative
    [int64], and the decoding loop reads its output back. *)
Lemma encode_loop_spec fuel : ∀ n acc,
  0 <= n < 62 ^ Z.of_nat fuel → n <= Int64.max →
  ∃ s, b62Encode_loop fuel n acc = Some (s +:+ acc)
       ∧ b62Decode_loop s 0 = Ok n
       ∧ mem ":" s = false
       ∧ (n = 0 → s = "")
       ∧ (0 < n → ∃ c s', s = String c s' ∧ c ≠ "-"%char).
Proof.
  induction fuel as [|fuel IH]; intros n acc Hn Hmax.
  - assert (n = 0) as -> by (cbn in Hn; lia).
    exists "". cbn. repeat split; try done; lia.
  - destruct (Z.eq_dec n 0) as [->|Hn0].
    { exists "". cbn. repeat split; try done; lia. }
    cbn [b62Encode_loop]. rewrite (proj2 (Z.ltb_lt 0 n)) by lia.
    rewrite Z.quot_div_nonneg, Z.rem_mod_nonneg by lia.
    assert (0 <= n / 62 < 62 ^ Z.of_nat fuel) as Hq.
    { split; [apply Z.div_pos; lia|].
      apply Z.div_lt_upper_bound; [lia|].
      rewrite Nat2Z.inj_succ, Z.pow_succ_r in Hn; lia. }
    assert (n / 62 <= n) as Hle by (apply Z.div_le_upper_bound; lia).
    pose proof (Z.mod_pos_bound n 62 ltac:(lia)) as Hr.
    set (d := base62Alphabet_at (n `mod` 62)).
    destruct (IH (n / 62) (String d acc) Hq ltac:(lia))
      as (s' & Henc & Hdec & Hsep & Hzero & Hpos).
    pose proof (digits_ok _ Hr) as Hd. unfold digit_ok in Hd. fold d in Hd.
    apply andb_true_iff in Hd as [Hd Hd3]. apply andb_true_iff in Hd as [Hd1 Hd2].
    apply Z.eqb_eq in Hd1. apply negb_true_iff in Hd2, Hd3.
    exists (s' +:+ String d ""). repeat split.
    + rewrite Henc. f_equal. by rewrite app_assoc.
    + rewrite decode_loop_app, Hdec. cbn [mbind result_bind b62Decode_loop].
      rewrite Hd1. rewrite (proj2 (Z.eqb_neq _ _)) by lia.
      f_equal. rewrite wrap_id.
      * pose proof (Z.div_mod n 62). lia.
      * unfold Int64.InRange, Int64.min, Int64.max in *.
        pose proof (Z.div_mod n 62). lia.
    + rewrite mem_app, Hsep. cbn. by rewrite Hd3.
    + lia.
    + intros _. destruct (Z.eq_dec (n / 62) 0) as [H0|H0].
      * rewrite (Hzero H0). exists d, "". split; [done|].
        by apply Ascii.eqb_neq.
      * destruct Hpos as (c & s'' & -> & Hc); [lia|].
        by exists c, (s'' +:+ String d "").
Qed.

Lemma encode_positive n :
  0 < n <= Int64.max →
  ∃ c s, b62Encode n = String c s ∧ c ≠ "-"%char
         ∧ b62Decode_loop (String c s) 0 = Ok n ∧ mem ":" (String c s) = false.
Proof.
  intros Hn.
  destruct (encode_loop_spec 64 n "") as (s & Henc & Hdec & Hsep & _ & Hpos).
  { unfold Int64.max in Hn. split; [lia|].
    eapply Z.le_lt_trans with (2 ^ 63 - 1); [lia|]. by vm_compute. }
  { lia. }
  destruct Hpos as (c & s' & -> & Hc); [lia|].
  exists c, s'. unfold b62Encode.
  rewrite (proj2 (Z.eqb_neq n 0)), (proj2 (Z.ltb_ge n 0)) by lia.
  cbv zeta. rewrite Henc, app_nil_r. done.
Qed.

Lemma decode_positive c s n :
  c ≠ "-"%char → 0 < n <= Int64.max →
  b62Decode_loop (String c s) 0 = Ok n → b62Decode (String c s) = Ok n.
Proof.
  intros Hc Hn Hdec. unfold b62Decode.
  destruct (String.eqb_spec (String c s) "0") as [Heq|_].
  { rewrite Heq in Hdec. vm_compute in Hdec. injection Hdec. lia. }
  destruct (Ascii.eqb_spec c "-") as [|_]; [done|].
  assert ((let '(s0, sign) :=
             match String c s with
             | String "-"%char s' => (s', -1)
             | _ => (String c s, 1)
             end in
           decoded ← b62Decode_loop s0 0; Ok (Int64.wrap (sign * decoded)))
          = (decoded ← b62Decode_loop (String c s) 0; Ok (Int64.wrap (1 * decoded)))) as ->.
  { destruct c as [[] [] [] [] [] [] [] []]; try done. }
  rewrite Hdec. cbn [mbind result_bind]. f_equal.
  rewrite wrap_id; [lia|]. unfold Int64.InRange, Int64.min, Int64.max in *. lia.
Qed.

(** [b62Decode] inverts [b62Encode] on every [int64] but the least. *)
Lemma b62_roundtrip n :
  Int64.min < n <= Int64.max → b62Decode (b62Encode n) = Ok n.
Proof.
  intros Hn. destruct (Z.lt_trichotomy n 0) as [Hneg|[->|Hpos]].
  - assert (Int64.wrap (- n) = - n) as Hw.
    { apply wrap_id. unfold Int64.InRange, Int64.min, Int64.max in *. lia. }
    destruct (encode_positive (- n)) as (c & s & Henc & Hc & Hdec & _).
    { unfold Int64.min, Int64.max in *. lia. }
    unfold b62Encode in *.
    rewrite (proj2 (Z.eqb_neq n 0)), (proj2 (Z.ltb_lt n 0)) by lia.
    rewrite (proj2 (Z.eqb_neq (- n) 0)), (proj2 (Z.ltb_ge (- n) 0)) in Henc by lia.
    cbv zeta in *. rewrite Hw.
    destruct (b62Encode_loop 64 (- n) "") as [e|]; [|done].
    cbn [String.append] in Henc. subst e.
    unfold b62Decode. cbn [String.append].
    replace (String "-" (String c s) =? "0")%string with false by done.
    rewrite Hdec. cbn [mbind result_bind]. f_equal.
    rewrite wrap_id; [lia|]. unfold Int64.InRange, Int64.min, Int64.max in *. lia.
  - done.
  - destruct (encode_positive n) as (c & s & Henc & Hc & Hdec & _); [lia|].
    rewrite Henc. apply decode_positive; [done | lia | done].
Qed.

Lemma b62_least :
  b62Encode Int64.min = "-" ∧ b62Decode "-" = Ok 0.
Proof. split; by vm_compute. Qed.

(** Decoding an encoded [int64] never fails. *)
Lemma b62_decode_encode_ok n :
  Int64.InRange n → ∃ m, b62Decode (b62Encode n) = Ok m ∧ (n ≠ Int64.min → m = n).
Proof.
  intros [Hlo Hhi]. destruct (Z.eq_dec n Int64.min) as [->|Hne].
  - exists 0. split; [by vm_compute | done].
  - exists n. split; [apply b62_roundtrip; lia | done].
Qed.

Lemma b62Encode_no_sep n : Int64.InRange n → mem ":" (b62Encode n) = false.
Proof.
  intros [Hlo Hhi]. destruct (Z.eq_dec n Int64.min) as [->|Hne]; [by vm_compute|].
  destruct (Z.lt_trichotomy n 0) as [Hneg|[->|Hpos]]; [| done |].
  - destruct (encode_positive (- n)) as (c & s & Henc & _ & _ & Hsep).
    { unfold Int64.min, Int64.max in *. lia. }
    assert (Int64.wrap (- n) = - n) as Hw.
    { apply wrap_id. unfold Int64.InRange, Int64.min, Int64.max in *. lia. }
    unfold b62Encode in *.
    rewrite (proj2 (Z.eqb_neq n 0)), (proj2 (Z.ltb_lt n 0)) by lia.
    rewrite (proj2 (Z.eqb_neq (- n) 0)), (proj2 (Z.ltb_ge (- n) 0)) in Henc by lia.
    cbv zeta in *. rewrite Hw.
    destruct (b62Encode_loop 64 (- n) "") as [e|]; [|done].
    cbn [String.append] in Henc. subst e. cbn [String.append].
    change (mem ":" (String "-" (String c s)))
      with (Ascii.eqb "-" ":" || mem ":" (String c s)).
    by rewrite Hsep.
  - destruct (encode_positive n) as (c & s & Henc & _ & _ & Hsep); [lia|].
    by rewrite Henc.
Qed.

End Base62Facts.

(** ** Base 62, as the specification describes it *)

Module SpecFacts.
Import GoStrings StringFacts.

Lemma digit62_alphabet r : 0 <= r < 62 → base62Alphabet_at r = Spec.digit62 r.
Proof.
  intros Hr.
  pose proof (forall_below
                (fun r => Ascii.eqb (base62Alphabet_at r) (Spec.digit62 r)) 62) as H.
  apply Ascii.eqb_eq, H; [by vm_compute | lia].
Qed.

Lemma loop_done fuel encoded : b62Encode_loop fuel 0 encoded = Some encoded.
Proof. by destruct fuel. Qed.

(** The loop of [b62Encode] writes the digits of a positive number before
    what it has written already. *)
Lemma encode_loop_magnitude fuel : ∀ digits n encoded,
  0 < n → n < 62 ^ Z.of_nat fuel → n < 62 ^ Z.of_nat digits →
  b62Encode_loop fuel n encoded = Some (Spec.magnitude62 digits n +:+ encoded).
Proof.
  induction fuel as [|fuel IH]; intros digits n encoded Hpos Hfuel Hdigits.
  { change (62 ^ Z.of_nat 0) with 1 in Hfuel. lia. }
  destruct digits as [|digits]; [change (62 ^ Z.of_nat 0) with 1 in Hdigits; lia|].
  cbn [b62Encode_loop Spec.magnitude62]. rewrite (proj2 (Z.ltb_lt 0 n) Hpos). cbv zeta.
  rewrite Z.rem_mod_nonneg, Z.quot_div_nonneg by lia.
  rewrite digit62_alphabet by (apply Z.mod_pos_bound; lia).
  destruct (Z.ltb_spec n 62) as [Hsmall|Hbig].
  - rewrite Z.div_small, Z.mod_small by lia. by rewrite loop_done.
  - rewrite Nat2Z.inj_succ, Z.pow_succ_r in Hfuel, Hdigits by lia.
    rewrite IH with (digits := digits).
    + by rewrite app_assoc.
    + apply Z.div_str_pos. lia.
    + apply Z.div_lt_upper_bound; lia.
    + apply Z.div_lt_upper_bound; lia.
Qed.

Lemma digits_suffice n :
  0 < n → n < 62 ^ Z.of_nat (S (Z.to_nat (Z.log2 n))).
Proof.
  intros Hpos. pose proof (Z.log2_spec n Hpos) as [_ Hlt].
  pose proof (Z.log2_nonneg n).
  rewrite Nat2Z.inj_succ, Z2Nat.id by done.
  eapply Z.lt_le_trans; [exact Hlt|]. apply Z.pow_le_mono_l. lia.
Qed.

(** [b62Encode] writes base 62 as specified, on every [int64] but the
    least. *)
Lemma b62Encode_base62 n :
  Int64.min < n <= Int64.max → b62Encode n = Spec.base62 n.
Proof.
  intros Hn. unfold b62Encode, Spec.base62.
  destruct (Z.eqb_spec n 0) as [->|Hnz]; [done|].
  destruct (Z.ltb_spec n 0) as [Hneg|Hpos].
  - rewrite wrap_id by (unfold Int64.InRange, Int64.min, Int64.max in *; lia).
    rewrite Z.abs_neq by lia.
    rewrite encode_loop_magnitude with (digits := S (Z.to_nat (Z.log2 (- n)))).
    + by rewrite app_nil_r.
    + lia.
    + unfold Int64.min in Hn. eapply Z.lt_le_trans with (m := 2 ^ 64); [lia|].
      by vm_compute.
    + apply digits_suffice. lia.
  - rewrite Z.abs_eq by lia.
    rewrite encode_loop_magnitude with (digits := S (Z.to_nat (Z.log2 n))).
    + by rewrite app_nil_r.
    + lia.
    + unfold Int64.max in Hn. eapply Z.lt_le_trans with (m := 2 ^ 64); [lia|].
      by vm_compute.
    + apply digits_suffice. lia.
Qed.

End SpecFacts.

(** The string specified denotes the number encoded. *)
Module SpecValue.
Import GoStrings StringFacts.

Lemma value_app a b : ∀ acc,
  b62_value (a +:+ b) acc = b62_value a acc ≫= b62_value b.
Proof.
  induction a as [|c a IH]; intros acc; [done|].
  cbn [String.append b62_value]. cbv zeta.
  destruct (IndexRune base62Alphabet c =? -1); [done|]. apply IH.
Qed.

Definition digit_read (d : Z) : bool :=
  (IndexRune base62Alphabet (Spec.digit62 d) =? d)
  && negb (Ascii.eqb (Spec.digit62 d) "-").

Lemma digit_reads d : 0 <= d < 62 → digit_read d = true.
Proof. intros Hd. apply (forall_below digit_read 62); [by vm_compute | lia]. Qed.

Lemma value_digit d acc :
  0 <= d < 62 → b62_value (String (Spec.digit62 d) "") acc = Some (acc * 62 + d).
Proof.
  intros Hd. pose proof (digit_reads d Hd) as [Hi _]%andb_prop.
  apply Z.eqb_eq in Hi. cbn [b62_value]. cbv zeta. rewrite Hi.
  by rewrite (proj2 (Z.eqb_neq d (-1))) by lia.
Qed.

(** The digits of a magnitude denote it, and the first of them is no
    minus sign. *)
Lemma magnitude_value digits : ∀ n,
  0 <= n < 62 ^ Z.of_nat (S digits) →
  b62_value (Spec.magnitude62 (S digits) n) 0 = Some n
  ∧ ∃ c rest, Spec.magnitude62 (S digits) n = String c rest ∧ c ≠ "-"%char.
Proof.
  assert (∀ d, 0 <= d < 62 → Spec.digit62 d ≠ "-"%char) as Hminus.
  { intros d Hd. pose proof (digit_reads d Hd) as [_ Hc]%andb_prop.
    apply negb_true_iff in Hc. by apply Ascii.eqb_neq. }
  induction digits as [|digits IH]; intros n Hn.
  - change (62 ^ Z.of_nat 1) with 62 in Hn. cbn [Spec.magnitude62].
    rewrite (proj2 (Z.ltb_lt n 62)) by lia. split.
    + by rewrite value_digit by done.
    + eexists _, _. split; [done|]. by apply Hminus.
  - rewrite Nat2Z.inj_succ, Z.pow_succ_r in Hn by lia.
    change (Spec.magnitude62 (S (S digits)) n)
      with (if n <? 62 then String (Spec.digit62 n) ""
            else Spec.magnitude62 (S digits) (n / 62)
                 +:+ String (Spec.digit62 (n mod 62)) "").
    destruct (Z.ltb_spec n 62) as [Hsmall|Hbig].
    + split.
      * by rewrite value_digit by lia.
      * eexists _, _. split; [done|]. apply Hminus. lia.
    + destruct (IH (n / 62)) as (Hvalue & c & rest & Hshape & Hc).
      { split; [apply Z.div_pos; lia | apply Z.div_lt_upper_bound; lia]. }
      split.
      * rewrite value_app, Hvalue. cbn [mbind option_bind].
        rewrite value_digit by (apply Z.mod_pos_bound; lia).
        f_equal. pose proof (Z.div_mod n 62). lia.
      * rewrite Hshape. cbn [String.append]. by eexists _, _.
Qed.

Lemma base62_denotes n : b62_denotes (Spec.base62 n) = Some n.
Proof.
  unfold Spec.base62.
  assert (0 <= Z.abs n < 62 ^ Z.of_nat (S (Z.to_nat (Z.log2 (Z.abs n))))) as Hdigits.
  { split; [lia|]. destruct (Z.eq_dec (Z.abs n) 0) as [Hz|Hnz].
    - rewrite Hz. reflexivity.
    - apply SpecFacts.digits_suffice. lia. }
  destruct (magnitude_value _ _ Hdigits) as (Hvalue & c & rest & Hshape & Hc).
  destruct (Z.ltb_spec n 0) as [Hneg|Hpos].
  - cbn [String.append b62_denotes]. rewrite Hvalue. cbn [fmap option_fmap option_map].
    f_equal. lia.
  - cbn [String.append]. rewrite <- (Z.abs_eq n) at 3 by lia.
    rewrite <- Hvalue, Hshape. unfold b62_denotes.
    destruct c as [[] [] [] [] [] [] [] []]; done.
Qed.

End SpecValue.

(** ** Bytes *)

Lemma Z_of_byte_range b : 0 <= Z_of_byte b < 256.
Proof. unfold Z_of_byte. pose proof (Byte.to_N_bounded b). lia. Qed.

Lemma byte_of_Z_eq z b : z mod 256 = Z_of_byte b → byte_of_Z z = b.
Proof.
  unfold byte_of_Z, Z_of_byte. intros ->. by rewrite N2Z.id, Byte.of_to_N.
Qed.

Lemma list_ind3 {A} (P : list A → Prop) :
  P [] → (∀ a, P [a]) → (∀ a b, P [a; b]) →
  (∀ a b c l, P l → P (a :: b :: c :: l)) → ∀ l, P l.
Proof.
  intros H0 H1 H2 H3.
  assert (∀ l, P l ∧ (∀ a, P (a :: l)) ∧ (∀ a b, P (a :: b :: l))) as H.
  { induction l as [|x l (IH0 & IH1 & IH2)]; [by auto|].
    repeat split; auto. }
  intros l. apply H.
Qed.

Module Base64Facts.
Import GoStrings StringFacts Base64.

Definition url_char (c : ascii) : bool :=
  match dec c with Some _ => true | None => false end.

Fixpoint url_chars (s : string) : bool :=
  match s with
  | EmptyString => true
  | String c s' => url_char c && url_chars s'
  end.

Definition enc_ok (i : Z) : bool :=
  match dec (enc i) with Some j => j =? i | None => false end.

Lemma dec_enc i : 0 <= i < 64 → dec (enc i) = Some i.
Proof.
  intros Hi. pose proof (forall_below enc_ok 64 ltac:(by vm_compute) i Hi) as H.
  unfold enc_ok in H. destruct (dec (enc i)) as [j|]; [|done].
  apply Z.eqb_eq in H. by subst.
Qed.

Lemma enc_url_char i : 0 <= i < 64 → url_char (enc i) = true.
Proof. intros Hi. unfold url_char. by rewrite dec_enc. Qed.

(** Whatever the alphabet decodes is none of the characters the token
    format gives a meaning to. *)
Lemma url_char_plain c :
  url_char c = true →
  c ≠ ":"%char ∧ c ≠ "."%char ∧ c ≠ "="%char ∧ c ≠ "010"%char ∧ c ≠ "013"%char.
Proof.
  intros H. repeat split; intros ->; by vm_compute in H.
Qed.

Lemma sextet z : 0 <= z mod 64 < 64.
Proof. apply Z.mod_pos_bound. lia. Qed.

Lemma nopad_url_chars data : url_chars (base64url_nopad data) = true.
Proof.
  induction data as [| a | a b | a b c l IH] using list_ind3;
    cbn [base64url_nopad url_chars]; cbv zeta;
    rewrite ?enc_url_char by apply sextet; done.
Qed.

Lemma url_chars_no_sep s : url_chars s = true → mem ":" s = false.
Proof.
  induction s as [|c s IH]; [done|]. cbn [url_chars mem].
  intros [Hc Hs]%andb_true_iff.
  rewrite IH, orb_false_r by done.
  apply Ascii.eqb_neq. by apply url_char_plain.
Qed.

Lemma url_chars_no_pad s : url_chars s = true → TrimRight s "=" = s.
Proof.
  induction s as [|c s IH]; [done|]. cbn [url_chars]. intros [Hc Hs]%andb_true_iff.
  rewrite TrimRight_keep, IH; [done | done |].
  rewrite mem_single. apply Ascii.eqb_neq.
  intros <-. by apply url_char_plain in Hc as (_ & _ & ? & _).
Qed.

Lemma url_chars_strip s : url_chars s = true → strip_newlines s = s.
Proof.
  induction s as [|c s IH]; [done|]. cbn [url_chars]. intros [Hc Hs]%andb_true_iff.
  cbn [strip_newlines]. apply url_char_plain in Hc as (_ & _ & _ & Hn & Hr).
  apply Ascii.eqb_neq in Hn, Hr. rewrite Hn, Hr. cbn. by rewrite IH.
Qed.

Lemma TrimRight_enc z s :
  TrimRight (String (enc (z mod 64)) s) "=" = String (enc (z mod 64)) (TrimRight s "=").
Proof.
  apply TrimRight_keep. rewrite mem_single. apply Ascii.eqb_neq. intros E.
  symmetry in E. revert E. apply url_char_plain, enc_url_char, sextet.
Qed.

(** [b64Encode] is base64url without padding. *)
Lemma b64Encode_nopad data : b64Encode data = base64url_nopad data.
Proof.
  unfold b64Encode.
  induction data as [| a | a b | a b c l IH] using list_ind3;
    cbn [EncodeToString base64url_nopad]; cbv zeta;
    rewrite ?TrimRight_enc, ?IH; done.
Qed.

Lemma b64Encode_url_chars data : url_chars (b64Encode data) = true.
Proof. rewrite b64Encode_nopad. apply nopad_url_chars. Qed.

Lemma b64Encode_no_sep data : mem ":" (b64Encode data) = false.
Proof. apply url_chars_no_sep, b64Encode_url_chars. Qed.

Lemma b64Encode_no_marker data rest : b64Encode data ≠ String "." rest.
Proof.
  intros H. pose proof (b64Encode_url_chars data) as Hu. rewrite H in Hu.
  cbn in Hu. done.
Qed.

End Base64Facts.

Module Base64Round.
Import GoStrings StringFacts Base64 Base64Facts.

Lemma enc_not_pad z : Ascii.eqb (enc (z mod 64)) StdPadding = false.
Proof.
  apply Ascii.eqb_neq. intros E. revert E.
  apply url_char_plain, enc_url_char, sextet.
Qed.

(** The padding [b64Decode] adds is the padding [b64Encode] removed. *)
Lemma repad data :
  let s := base64url_nopad data in
  s +:+ Repeat "=" (Z.rem (4 - Z.rem (len s) 4) 4) = EncodeToString data.
Proof.
  induction data as [| a | a b | a b c l IH] using list_ind3; try done.
  cbv zeta in *. cbn [base64url_nopad EncodeToString]. cbv zeta.
  rewrite !len_cons. cbn [String.append].
  replace (Z.rem (len (base64url_nopad l) + 1 + 1 + 1 + 1) 4)
    with (Z.rem (len (base64url_nopad l)) 4); [by rewrite IH|].
  pose proof (len_nonneg (base64url_nopad l)).
  rewrite !Z.rem_mod_nonneg by lia.
  replace (len (base64url_nopad l) + 1 + 1 + 1 + 1)
    with (len (base64url_nopad l) + 1 * 4) by lia.
  by rewrite Z.mod_add.
Qed.

Lemma encoded_strip data : strip_newlines (EncodeToString data) = EncodeToString data.
Proof.
  assert (∀ z s, strip_newlines (String (enc (z mod 64)) s)
                 = String (enc (z mod 64)) (strip_newlines s)) as Hs.
  { intros z s. cbn [strip_newlines].
    destruct (url_char_plain (enc (z mod 64))) as (_ & _ & _ & Hn & Hr).
    { apply enc_url_char, sextet. }
    apply Ascii.eqb_neq in Hn, Hr. by rewrite Hn, Hr. }
  induction data as [| a | a b | a b c l IH] using list_ind3;
    cbn [EncodeToString]; cbv zeta; rewrite ?Hs, ?IH; done.
Qed.

Lemma quantum1 a :
  let val := a * 2 ^ 16 in
  0 <= a < 256 →
  ((val / 2 ^ 18 mod 64) * 2 ^ 18 + (val / 2 ^ 12 mod 64) * 2 ^ 12) / 2 ^ 16 mod 256 = a.
Proof. cbv zeta. intros. change (2^18) with 262144. change (2^16) with 65536. change (2^12) with 4096. Z.div_mod_to_equations. lia. Qed.

Lemma quantum2 a b :
  let val := a * 2 ^ 16 + b * 2 ^ 8 in
  let val' := (val / 2 ^ 18 mod 64) * 2 ^ 18 + (val / 2 ^ 12 mod 64) * 2 ^ 12
              + (val / 2 ^ 6 mod 64) * 2 ^ 6 in
  0 <= a < 256 → 0 <= b < 256 →
  val' / 2 ^ 16 mod 256 = a ∧ val' / 2 ^ 8 mod 256 = b.
Proof.
  cbv zeta. intros.
  change (2^18) with 262144. change (2^16) with 65536. change (2^12) with 4096.
  change (2^8) with 256. change (2^6) with 64.
  split; Z.div_mod_to_equations; lia.
Qed.

Lemma quantum3 a b c :
  let val := a * 2 ^ 16 + b * 2 ^ 8 + c in
  let val' := (val / 2 ^ 18 mod 64) * 2 ^ 18 + (val / 2 ^ 12 mod 64) * 2 ^ 12
              + (val / 2 ^ 6 mod 64) * 2 ^ 6 + val mod 64 in
  0 <= a < 256 → 0 <= b < 256 → 0 <= c < 256 →
  val' / 2 ^ 16 mod 256 = a ∧ val' / 2 ^ 8 mod 256 = b ∧ val' mod 256 = c.
Proof.
  cbv zeta. intros.
  change (2^18) with 262144. change (2^16) with 65536. change (2^12) with 4096.
  change (2^8) with 256. change (2^6) with 64.
  repeat split; Z.div_mod_to_equations; lia.
Qed.

Lemma decode_encoded data : decode_quanta (EncodeToString data) = Some data.
Proof.
  induction data as [| a | a b | a b c l IH] using list_ind3.
  - done.
  - cbn [EncodeToString decode_quanta]. cbv zeta.
    do 2 rewrite dec_enc by apply sextet. cbn [mbind option_bind].
    rewrite Ascii.eqb_refl.
    pose proof (quantum1 _ (Z_of_byte_range a)) as H. cbv zeta in H.
    by rewrite (byte_of_Z_eq _ a H).
  - cbn [EncodeToString decode_quanta]. cbv zeta.
    do 3 rewrite dec_enc by apply sextet. cbn [mbind option_bind].
    rewrite Ascii.eqb_refl, enc_not_pad.
    pose proof (quantum2 _ _ (Z_of_byte_range a) (Z_of_byte_range b)) as [H1 H2].
    by rewrite (byte_of_Z_eq _ a H1), (byte_of_Z_eq _ b H2).
  - cbn [EncodeToString decode_quanta]. cbv zeta.
    do 4 rewrite dec_enc by apply sextet. cbn [mbind option_bind].
    rewrite enc_not_pad, IH. cbn [mbind option_bind].
    pose proof (quantum3 _ _ _ (Z_of_byte_range a) (Z_of_byte_range b)
                  (Z_of_byte_range c)) as (H1 & H2 & H3).
    by rewrite (byte_of_Z_eq _ a H1), (byte_of_Z_eq _ b H2), (byte_of_Z_eq _ c H3).
Qed.

(** [b64Decode] inverts [b64Encode]. *)
Lemma b64_roundtrip data : b64Decode (b64Encode data) = Ok data.
Proof.
  unfold b64Decode. rewrite b64Encode_nopad.
  pose proof (repad data) as H. cbv zeta in H. rewrite H.
  unfold DecodeString. by rewrite encoded_strip, decode_encoded.
Qed.

End Base64Round.

(** ** The signer *)

Module SignerFacts.
Import GoStrings StringFacts Base62Facts Base64Facts Base64Round.

Lemma signature_no_sep ds value : mem ":" (signature ds value) = false.
Proof. apply b64Encode_no_sep. Qed.

Lemma mem_sep_app v t : mem ":" (v +:+ String ":" t) = true.
Proof. rewrite mem_app. cbn [mem]. by rewrite Ascii.eqb_refl, orb_true_r. Qed.

(** [Unsign] on a string without separator. *)
Lemma Unsign_no_sep ds s :
  Sep ds = ":" → mem ":" s = false →
  Unsign ds s = Err (New "no separator found in value").
Proof. intros HS Hm. unfold Unsign. by rewrite HS, Contains_char, Hm. Qed.

(** [Unsign] splits at the last separator and compares the signature. *)
Lemma Unsign_split ds v sig :
  Sep ds = ":" → mem ":" sig = false →
  Unsign ds (v +:+ String ":" sig) =
    if String.eqb sig (signature ds v) then Ok v
    else Err (New "signature does not match").
Proof.
  intros HS Hm. unfold Unsign.
  rewrite HS, Contains_char, mem_sep_app. cbn [negb].
  rewrite LastIndex_app by done.
  rewrite slice_to_app, slice_from_app_cons. cbn [or_panic mbind result_bind].
  unfold constantTimeCompare. by destruct (String.eqb sig (signature ds v)).
Qed.

Lemma Unsign_signed ds v :
  Sep ds = ":" → Unsign ds (v +:+ String ":" (signature ds v)) = Ok v.
Proof.
  intros HS. rewrite Unsign_split by auto using signature_no_sep.
  by rewrite String.eqb_refl.
Qed.

(** [UnsignTimestamp] on a signed value whose last field has no separator. *)
Lemma UnsignTimestamp_split ds now v ts maxAge :
  Sep ds = ":" → mem ":" ts = false →
  UnsignTimestamp ds now
    ((v +:+ String ":" ts) +:+ String ":" (signature ds (v +:+ String ":" ts))) maxAge =
    match b62Decode ts with
    | Err err => Err (Errorf_w "invalid timestamp" err)
    | Panic => Panic
    | Ok timestamp =>
        match maxAge with
        | Some maxAge =>
            let age := GoTime.Since now (GoTime.Unix timestamp 0) in
            if maxAge <? age then Err (Errorf_signature_age age maxAge) else Ok v
        | None => Ok v
        end
    end.
Proof.
  intros HS Hm. unfold UnsignTimestamp.
  rewrite Unsign_signed by done. cbn [mbind result_bind].
  rewrite HS, Contains_char, mem_sep_app. cbn [negb].
  rewrite LastIndex_app by done.
  rewrite slice_to_app, slice_from_app_cons. cbn [or_panic mbind result_bind].
  done.
Qed.

Lemma SignTimestamp_unfold ds now v :
  Sep ds = ":" →
  SignTimestamp ds now v =
    (v +:+ String ":" (b62Encode (GoTime.Unix_of now)))
    +:+ String ":" (signature ds (v +:+ String ":" (b62Encode (GoTime.Unix_of now)))).
Proof. intros HS. unfold SignTimestamp. rewrite HS. cbn [String.append]. done. Qed.

Lemma Unix_of_in_range now : Int64.InRange (GoTime.Unix_of now).
Proof. apply wrap_in_range. Qed.

(** Verifying what [SignTimestamp] made: the signature matches, the
    timestamp is read back, and only the age check can fail. *)
Lemma UnsignTimestamp_signed ds now0 now v maxAge :
  Sep ds = ":" →
  ∃ timestamp,
    b62Decode (b62Encode (GoTime.Unix_of now0)) = Ok timestamp
    ∧ (GoTime.Unix_of now0 ≠ Int64.min → timestamp = GoTime.Unix_of now0)
    ∧ UnsignTimestamp ds now (SignTimestamp ds now0 v) maxAge =
        match maxAge with
        | Some maxAge =>
            let age := GoTime.Since now (GoTime.Unix timestamp 0) in
            if maxAge <? age then Err (Errorf_signature_age age maxAge) else Ok v
        | None => Ok v
        end.
Proof.
  intros HS.
  destruct (b62_decode_encode_ok _ (Unix_of_in_range now0)) as (ts & Hdec & Hts).
  exists ts. split; [done|]. split; [done|].
  rewrite SignTimestamp_unfold by done.
  rewrite UnsignTimestamp_split, Hdec; [done | done |].
  apply b62Encode_no_sep, Unix_of_in_range.
Qed.

Lemma no_marker_match {A} (s : string) (f : string → A) (g : A) :
  (∀ rest, s ≠ String "." rest) →
  match s with String "."%char rest => f rest | _ => g end = g.
Proof.
  intros H. destruct s as [|c s]; [done|].
  destruct c as [[] [] [] [] [] [] [] []]; try done.
  by destruct (H s).
Qed.

Section Objects.
Context `{!Zlib, !JSON}.

Lemma SignObject_unfold ds now obj compress jsonData :
  json_Marshal obj = Some jsonData →
  SignObject ds now obj compress =
    Ok (SignTimestamp ds now
          (if compress then String "." (b64Encode (zlib_compress jsonData))
           else b64Encode jsonData)).
Proof. intros HM. unfold SignObject. rewrite HM. by destruct compress. Qed.

(** What [UnsignObject] does with the value part of a token made by
    [SignObject], once the signature and the timestamp are accepted. *)
Lemma UnsignObject_signed ds now0 now obj compress jsonData token :
  Sep ds = ":" →
  json_Marshal obj = Some jsonData →
  SignObject ds now0 obj compress = Ok token →
  UnsignObject ds now token None =
    if compress then
      match zlib_decompress (zlib_compress jsonData) with
      | ZlibHeaderError =>
          Err (Errorf_w "zlib decompress error" (LibraryError "compress/zlib"))
      | ZlibReadError =>
          Err (Errorf_w "zlib read error" (LibraryError "compress/zlib"))
      | Inflated decompressed => json_decoded decompressed
      end
    else json_decoded jsonData.
Proof.
  intros HS HM Hsign. rewrite (SignObject_unfold _ _ _ _ _ HM) in Hsign.
  injection Hsign as <-. unfold UnsignObject.
  destruct (UnsignTimestamp_signed ds now0 now
              (if compress then String "." (b64Encode (zlib_compress jsonData))
               else b64Encode jsonData) None HS) as (ts & _ & _ & ->).
  cbn [mbind result_bind]. destruct compress.
  - rewrite b64_roundtrip. by destruct (zlib_decompress (zlib_compress jsonData)).
  - rewrite no_marker_match by apply b64Encode_no_marker.
    by rewrite b64_roundtrip.
Qed.

(** Signing an object and verifying the token without a maximum age
    gives what the JSON decoder reads from the JSON text of the object. *)
Lemma sign_unsign_object ds now0 now obj compress jsonData decoded :
  Sep ds = ":" →
  json_Marshal obj = Some jsonData →
  json_Unmarshal jsonData = Some decoded →
  (compress = true → zlib_decompress (zlib_compress jsonData) = Inflated jsonData) →
  ∃ token, SignObject ds now0 obj compress = Ok token
           ∧ UnsignObject ds now token None = Ok decoded.
Proof.
  intros HS HM HU HZ. eexists. split; [by apply SignObject_unfold|].
  erewrite UnsignObject_signed; [|done|done|by apply SignObject_unfold].
  unfold json_decoded. destruct compress; [rewrite HZ by done|]; by rewrite HU.
Qed.
End Objects.

End SignerFacts.

(** ** Session maps *)

Module SessionFacts.

Lemma round_half_even_exact m e z :
  float64_integer (S754_finite false m e) = Some z → round_half_even (Z.pos m) e = z.
Proof.
  unfold float64_integer, round_half_even.
  destruct (0 <=? e) eqn:He.
  - intros [= <-]. lia.
  - apply Z.leb_gt in He.
    destruct (Z.pos m mod 2 ^ (- e) =? 0) eqn:Hr; [|done].
    apply Z.eqb_eq in Hr. intros [= <-]. cbv zeta. rewrite Hr.
    assert (0 < 2 ^ (- e)) by (apply Z.pow_pos_nonneg; lia).
    rewrite (proj2 (Z.ltb_lt _ _)) by lia. lia.
Qed.

(** An integer-valued [float64] prints as the decimal integer. *)
Lemma fmt_f0_integer f z :
  float64_integer f = Some z → f ≠ S754_zero true → fmt_f0 f = fmt_d z.
Proof.
  destruct f as [[]| | |s m e]; try done.
  - by intros [= <-].
  - intros Hz _. unfold fmt_f0.
    assert (∃ a, float64_integer (S754_finite false m e) = Some a
                 ∧ z = (if s then -1 else 1) * a ∧ 0 < a) as (a & Ha & -> & Hpos).
    { revert Hz. unfold float64_integer. destruct (0 <=? e) eqn:He.
      - intros [= <-]. exists (Z.pos m * 2 ^ e). split; [f_equal; lia|]. split; [done|].
        apply Z.leb_le in He. pose proof (Z.pow_pos_nonneg 2 e). lia.
      - apply Z.leb_gt in He.
        destruct (Z.pos m mod 2 ^ (- e) =? 0) eqn:Hr; [|done].
        intros [= <-]. exists (Z.pos m / 2 ^ (- e)). split; [f_equal; lia|]. split; [done|].
        apply Z.eqb_eq in Hr.
        assert (0 < 2 ^ (- e)) by (apply Z.pow_pos_nonneg; lia).
        pose proof (Z.div_mod (Z.pos m) (2 ^ (- e))). nia. }
    rewrite (round_half_even_exact _ _ _ Ha). unfold fmt_d.
    destruct s.
    + rewrite (proj2 (Z.ltb_lt _ _)) by lia. do 3 f_equal. lia.
    + rewrite (proj2 (Z.ltb_ge _ _)) by lia. do 3 f_equal. lia.
Qed.

Section Maps.
Context `{!Zlib, !JSON}.

(** The additional data overrides the user ID. *)
Lemma encodedSession_lookup userID additionalData key :
  encodedSession userID additionalData !! key =
    match entries additionalData !! key with
    | Some v => Some v
    | None => if decide (key = "_auth_user_id") then Some (VString userID) else None
    end.
Proof.
  unfold encodedSession.
  apply (map_fold_weak_ind
           (fun (r : gmap string value) (m : gmap string value) =>
              r !! key = match m !! key with
                         | Some v => Some v
                         | None => if decide (key = "_auth_user_id")
                                   then Some (VString userID) else None
                         end)).
  - rewrite lookup_empty. case_decide as Hk.
    + subst. by rewrite lookup_insert_eq.
    + by rewrite lookup_insert_ne, lookup_empty.
  - intros i x m r Hi IH. destruct (decide (i = key)) as [->|Hne].
    + by rewrite !lookup_insert_eq.
    + by rewrite !lookup_insert_ne.
Qed.

(** The updates applied to an allocated map: a [nil] value deletes the
    key, any other value is stored, the other keys are kept. *)
Lemma applyUpdates_Map (m : gmap string value) updates :
  ∃ m', applyUpdates (Map m) updates = Ok (Map m')
        ∧ ∀ key, m' !! key =
            match entries updates !! key with
            | Some VNil => None
            | Some v => Some v
            | None => m !! key
            end.
Proof.
  unfold applyUpdates.
  apply (map_fold_weak_ind
           (fun (r : result gomap) (u : gmap string value) =>
              ∃ m', r = Ok (Map m')
                    ∧ ∀ key, m' !! key = match u !! key with
                                         | Some VNil => None
                                         | Some v => Some v
                                         | None => m !! key
                                         end)).
  - exists m. split; [done|]. intros key. by rewrite lookup_empty.
  - intros i x u r Hi (m' & -> & Hm'). cbn [mbind result_bind].
    assert (∀ key, i ≠ key →
              match <[i:=x]> u !! key with
              | Some VNil => None | Some v => Some v | None => m !! key end
              = m' !! key) as Hother.
    { intros key Hne. by rewrite lookup_insert_ne, Hm'. }
    destruct x; cbn [map_delete map_assign];
      eexists; (split; [done|]); intros key;
      (destruct (decide (i = key)) as [->|Hne];
       [ rewrite ?lookup_delete_eq, ?lookup_insert_eq; done
       | rewrite ?lookup_delete_ne, ?lookup_insert_ne, ?Hother by done; done ]).
Qed.

(** On the nil map the first assignment panics. *)
Lemma applyUpdates_NilMap key v :
  v ≠ VNil → applyUpdates NilMap (Map {[key := v]}) = Panic.
Proof.
  intros Hv. unfold applyUpdates. cbn [entries].
  rewrite map_fold_singleton. cbn [mbind result_bind map_assign].
  by destruct v.
Qed.
End Maps.

End SessionFacts.

Import GoStrings StringFacts Base62Facts Base64Facts Base64Round SignerFacts SessionFacts.

(** ** Machine integers, continued *)

Lemma wrap_mod z : Int64.wrap z mod 2 ^ 64 = z mod 2 ^ 64.
Proof.
  unfold Int64.wrap.
  rewrite Zminus_mod_idemp_l. f_equal. lia.
Qed.

Lemma wrap_congr a b : a mod 2 ^ 64 = b mod 2 ^ 64 → Int64.wrap a = Int64.wrap b.
Proof.
  intros H. unfold Int64.wrap. f_equal.
  rewrite <- (Zplus_mod_idemp_l a), <- (Zplus_mod_idemp_l b). by rewrite H.
Qed.

Lemma wrap_wrap_affine a z i : Int64.wrap (a * Int64.wrap z + i) = Int64.wrap (a * z + i).
Proof.
  apply wrap_congr.
  rewrite <- (Zplus_mod_idemp_l (a * Int64.wrap z)), <- (Zmult_mod_idemp_r (Int64.wrap z)).
  rewrite wrap_mod. by rewrite Zmult_mod_idemp_r, Zplus_mod_idemp_l.
Qed.

Module Base62Value.

Lemma decode_loop_value s : ∀ acc,
  b62Decode_loop s (Int64.wrap acc) =
    match b62_value s acc with
    | Some v => Ok (Int64.wrap v)
    | None => Err Errorf_base62_character
    end.
Proof.
  induction s as [|c s IH]; intros acc; [done|].
  cbn [b62Decode_loop b62_value]. cbv zeta.
  destruct (IndexRune base62Alphabet c =? -1); [done|].
  rewrite <- IH. f_equal.
  rewrite (Z.mul_comm (Int64.wrap acc)), (Z.mul_comm acc). apply wrap_wrap_affine.
Qed.

Lemma decode_denotes s :
  b62Decode s =
    match b62_denotes s with
    | Some v => Ok (Int64.wrap v)
    | None => Err Errorf_base62_character
    end.
Proof.
  unfold b62Decode, b62_denotes.
  destruct (String.eqb_spec s "0") as [->|_]; [done|].
  destruct s as [|c s]; [done|].
  destruct (Ascii.eqb_spec c "-") as [->|Hc].
  - pose proof (decode_loop_value s 0) as H. change (Int64.wrap 0) with 0 in H.
    rewrite H. cbn [fmap option_fmap option_map].
    destruct (b62_value s 0) as [v|]; [|done]. cbn [mbind result_bind]. f_equal.
    rewrite <- (Z.add_0_r (-1 * Int64.wrap v)), wrap_wrap_affine. f_equal. lia.
  - transitivity (match b62_value (String c s) 0 with
                  | Some v => Ok (Int64.wrap v)
                  | None => Err Errorf_base62_character
                  end);
      [|destruct c as [[] [] [] [] [] [] [] []]; try done; by destruct Hc].
    transitivity (decoded ← b62Decode_loop (String c s) 0; Ok (Int64.wrap (1 * decoded)));
      [destruct c as [[] [] [] [] [] [] [] []]; try done; by destruct Hc|].
    pose proof (decode_loop_value (String c s) 0) as H.
    change (Int64.wrap 0) with 0 in H. rewrite H.
    destruct (b62_value (String c s) 0) as [v|]; [|done]. cbn [mbind result_bind]. f_equal.
    rewrite <- (Z.add_0_r (1 * Int64.wrap v)), wrap_wrap_affine. f_equal. lia.
Qed.

Lemma b62Decode_errors s e : b62Decode s = Err e → e = Errorf_base62_character.
Proof. rewrite decode_denotes. destruct (b62_denotes s); by intros [= <-]. Qed.

End Base62Value.

(** ** Verification, continued *)

Module VerificationFacts.

Lemma Unsign_accepts ds s v :
  Sep ds = ":" → Unsign ds s = Ok v ↔ s = v +:+ String ":" (signature ds v).
Proof.
  intros HS. split.
  - intros HU. destruct (mem ":" s) eqn:Hm.
    + destruct (split_last _ _ Hm) as (v' & sig & -> & Hsig).
      rewrite Unsign_split in HU by done.
      destruct (String.eqb_spec sig (signature ds v')) as [->|]; [|done].
      by injection HU as ->.
    + by rewrite Unsign_no_sep in HU.
  - intros ->. by apply Unsign_signed.
Qed.

Lemma Unsign_errors ds s e :
  Unsign ds s = Err e →
  e = New "no separator found in value" ∨ e = New "signature does not match".
Proof.
  unfold Unsign. destruct (negb (Contains s (Sep ds))); [intros [= <-]; by left|].
  destruct (slice_to s _); [|done]. destruct (slice_from s _); [|done].
  cbn [or_panic mbind result_bind].
  destruct (negb (constantTimeCompare _ _)); [intros [= <-]; by right | done].
Qed.

Lemma UnsignTimestamp_accepted ds now s maxAge v :
  Sep ds = ":" →
  UnsignTimestamp ds now s maxAge = Ok v ↔
  ∃ ts timestamp,
    s = (v +:+ String ":" ts) +:+ String ":" (signature ds (v +:+ String ":" ts))
    ∧ mem ":" ts = false
    ∧ b62Decode ts = Ok timestamp
    ∧ ∀ D, maxAge = Some D → GoTime.Since now (GoTime.Unix timestamp 0) <= D.
Proof.
  intros HS. split.
  - intros H. pose proof H as H'. unfold UnsignTimestamp in H'.
    destruct (Unsign ds s) as [r|e|] eqn:HU; [|done..].
    apply Unsign_accepts in HU; [|done]. subst s.
    cbn [mbind result_bind] in H'. rewrite HS, Contains_char in H'.
    destruct (mem ":" r) eqn:Hm; [|done]. clear H'.
    destruct (split_last _ _ Hm) as (v' & ts & -> & Hts).
    rewrite UnsignTimestamp_split in H by done.
    destruct (b62Decode ts) as [timestamp| |] eqn:Hdec; [|done..].
    exists ts, timestamp.
    destruct maxAge as [D|].
    + cbv zeta in H.
      destruct (Z.ltb_spec D (GoTime.Since now (GoTime.Unix timestamp 0))); [done|].
      injection H as ->. repeat split; try done. intros D' [= <-]. lia.
    + injection H as ->. repeat split; done.
  - intros (ts & timestamp & -> & Hts & Hdec & Hage).
    rewrite UnsignTimestamp_split, Hdec by done.
    destruct maxAge as [D|]; [|done]. cbv zeta.
    by rewrite (proj2 (Z.ltb_ge _ _)) by by apply Hage.
Qed.

End VerificationFacts.

(** ** Errors *)

Module ErrorFacts.

Lemma errors_Is_refl e : errors_Is e e = true.
Proof. destruct e; cbn [errors_Is]; by rewrite bool_decide_eq_true_2. Qed.

Lemma errors_Is_sentinel_free e target :
  sentinel_free e = true → target ∈ sentinels → errors_Is e target = false.
Proof.
  intros He Ht.
  assert (∀ e', sentinel_free e' = true → e' ≠ target) as Hne.
  { intros e' He' ->. unfold sentinels in Ht. set_unfold. by destruct Ht as [->|[->|[->|[->|[]]]]]. }
  revert He. induction e as [| | | | | | |msg cause IH| | |]; intros He; cbn [errors_Is];
    rewrite bool_decide_eq_false_2 by by apply Hne; try done.
  all: cbn [orb sentinel_free] in *; auto.
Qed.

Lemma Unsign_error_free ds s e : Unsign ds s = Err e → sentinel_free e = true.
Proof. by intros [-> | ->]%VerificationFacts.Unsign_errors. Qed.

Lemma UnsignTimestamp_error_free ds now s maxAge e :
  UnsignTimestamp ds now s maxAge = Err e → sentinel_free e = true.
Proof.
  unfold UnsignTimestamp. destruct (Unsign ds s) as [r|e'|] eqn:HU; cbn [mbind result_bind].
  - destruct (negb (Contains r (Sep ds))); [by intros [= <-]|].
    destruct (slice_to r _); [|done]. destruct (slice_from r _) as [ts|]; [|done].
    cbn [or_panic mbind result_bind].
    destruct (b62Decode ts) as [timestamp|e'|] eqn:Hdec.
    + destruct maxAge as [D|]; [|done]. cbv zeta.
      destruct (D <? _); [by intros [= <-] | done].
    + apply Base62Value.b62Decode_errors in Hdec as ->. by intros [= <-].
    + done.
  - intros [= <-]. by apply Unsign_error_free in HU.
  - done.
Qed.

Lemma b64Decode_error_free s e : b64Decode s = Err e → sentinel_free e = true.
Proof. unfold b64Decode. destruct (Base64.DecodeString _); [done | by intros [= <-]]. Qed.

Lemma userIDOf_error_free sessionMap e : userIDOf sessionMap = Err e → sentinel_free e = true.
Proof.
  unfold userIDOf. destruct (entries sessionMap !! "_auth_user_id") as [[]|];
    by intros [= <-].
Qed.

Section ObjectErrors.
Context `{!Zlib, !JSON}.

Lemma UnsignObject_error_free ds now s maxAge e :
  UnsignObject ds now s maxAge = Err e → sentinel_free e = true.
Proof.
  unfold UnsignObject.
  destruct (UnsignTimestamp ds now s maxAge) as [v|e'|] eqn:HU; cbn [mbind result_bind].
  - destruct (match v with String "."%char rest => (true, rest) | _ => (false, v) end)
      as [decompress base64Data].
    destruct (b64Decode base64Data) as [data|e'|] eqn:Hdec.
    + destruct decompress.
      * destruct (zlib_decompress data); cbn [mbind result_bind];
          [destruct (json_Unmarshal _) | |]; by intros [= <-].
      * cbn [mbind result_bind]. destruct (json_Unmarshal _); by intros [= <-].
    + intros [= <-]. cbn [sentinel_free]. by apply b64Decode_error_free in Hdec.
    + done.
  - intros [= <-]. by apply UnsignTimestamp_error_free in HU.
  - done.
Qed.

(** [UnsignObject] goes no further than [Unsign] when [Unsign] fails. *)
Lemma UnsignObject_Unsign_error ds now s maxAge e :
  Unsign ds s = Err e →
  UnsignTimestamp ds now s maxAge = Err e ∧ UnsignObject ds now s maxAge = Err e.
Proof.
  intros HU.
  assert (UnsignTimestamp ds now s maxAge = Err e) as HT
    by (unfold UnsignTimestamp; by rewrite HU).
  split; [done|]. unfold UnsignObject. by rewrite HT.
Qed.

End ObjectErrors.

End ErrorFacts.

(** ** Session maps, continued *)

Module NilMapFacts.

(** The updates applied to the nil map: deletions leave it as it is, and
    the first value that is not [nil] panics, in whatever order the map is
    ranged over. *)
Lemma applyUpdates_nil updates :
  (applyUpdates NilMap updates = Ok NilMap
   ∧ ∀ key v, entries updates !! key = Some v → v = VNil)
  ∨ (applyUpdates NilMap updates = Panic
     ∧ ∃ key v, entries updates !! key = Some v ∧ v ≠ VNil).
Proof.
  unfold applyUpdates.
  apply (map_fold_weak_ind
           (fun (r : result gomap) (u : gmap string value) =>
              (r = Ok NilMap ∧ ∀ key v, u !! key = Some v → v = VNil)
              ∨ (r = Panic ∧ ∃ key v, u !! key = Some v ∧ v ≠ VNil))).
  - left. split; [done|]. intros key v. by rewrite lookup_empty.
  - intros i x u r Hi [[-> Hall] | [-> (key & v & Hkey & Hv)]]; cbn [mbind result_bind].
    + assert (x = VNil ∨ x ≠ VNil) as [->|Hx] by (destruct x; (by left) || (by right)).
      * left. split; [done|]. intros key v.
        destruct (decide (i = key)) as [->|Hne].
        -- rewrite lookup_insert_eq. by intros [= <-].
        -- rewrite lookup_insert_ne by done. apply Hall.
      * right. split; [by destruct x|]. exists i, x. by rewrite lookup_insert_eq.
    + right. split; [done|]. exists key, v. split; [|done].
      rewrite lookup_insert_ne; [done|]. intros ->. by rewrite Hi in Hkey.
Qed.

End NilMapFacts.

(** ** Base 64, continued *)

Module Base64Padded.
Import Base64.

Lemma EncodeToString_length data :
  ∃ k : nat, String.length (EncodeToString data) = (4 * k)%nat.
Proof.
  induction data as [| a | a b | a b c l [k IH]] using list_ind3.
  - by exists 0%nat.
  - by exists 1%nat.
  - by exists 1%nat.
  - exists (S k). cbn [EncodeToString String.length]. cbv zeta. cbn [String.length]. lia.
Qed.

Lemma b64Decode_EncodeToString data : b64Decode (EncodeToString data) = Ok data.
Proof.
  unfold b64Decode. destruct (EncodeToString_length data) as [k Hk].
  unfold len. rewrite Hk.
  replace (Z.of_nat (4 * k)) with (Z.of_nat k * 4) by lia.
  rewrite Z.rem_mul by done. change (Z.rem (4 - 0) 4) with 0.
  change (Repeat "=" 0) with "". rewrite app_nil_r.
  unfold DecodeString. by rewrite encoded_strip, decode_encoded.
Qed.

End Base64Padded.

(** ** The signer, continued *)

Module AgeFacts.
Section ObjectAges.
Context `{!Zlib, !JSON}.

(** [UnsignObject] depends on the maximum age through [UnsignTimestamp]
    only. *)
Lemma UnsignObject_same_timestamp ds now now' s maxAge maxAge' :
  UnsignTimestamp ds now s maxAge = UnsignTimestamp ds now' s maxAge' →
  UnsignObject ds now s maxAge = UnsignObject ds now' s maxAge'.
Proof. intros HT. unfold UnsignObject. by rewrite HT. Qed.

Lemma UnsignObject_timestamp_error ds now s maxAge e :
  UnsignTimestamp ds now s maxAge = Err e → UnsignObject ds now s maxAge = Err e.
Proof. intros HT. unfold UnsignObject. by rewrite HT. Qed.

(** The token [SignObject] makes, verified with a maximum age. *)
Lemma UnsignObject_signed_age ds now0 now obj compress jsonData decoded D :
  Sep ds = ":" →
  GoTime.Unix_of now0 ≠ Int64.min →
  json_Marshal obj = Some jsonData →
  json_Unmarshal jsonData = Some decoded →
  (compress = true → zlib_decompress (zlib_compress jsonData) = Inflated jsonData) →
  ∃ token,
    SignObject ds now0 obj compress = Ok token
    ∧ UnsignObject ds now token None = Ok decoded
    ∧ let age := GoTime.Since now (GoTime.Unix (GoTime.Unix_of now0) 0) in
      UnsignObject ds now token (Some D) =
        if D <? age then Err (Errorf_signature_age age D) else Ok decoded.
Proof.
  intros HS Hmin HM HU HZ.
  destruct (sign_unsign_object ds now0 now obj compress jsonData decoded HS HM HU HZ)
    as (token & Hsign & Hunsign).
  exists token. split; [done|]. split; [done|]. cbv zeta.
  rewrite (SignObject_unfold _ _ _ _ _ HM) in Hsign. injection Hsign as <-.
  set (value := if compress then _ else _) in *.
  destruct (UnsignTimestamp_signed ds now0 now value (Some D) HS) as (ts & _ & Hts & HT).
  rewrite (Hts Hmin) in HT. cbv zeta in HT.
  destruct (D <? GoTime.Since now (GoTime.Unix (GoTime.Unix_of now0) 0)).
  - by apply UnsignObject_timestamp_error.
  - rewrite <- Hunsign. apply UnsignObject_same_timestamp. rewrite HT.
    by destruct (UnsignTimestamp_signed ds now0 now value None HS) as (? & _ & _ & ->).
Qed.

End ObjectAges.
End AgeFacts.

(** ** The middleware *)

(** An event that differs from every event of a given trace is not in it. *)
Ltac absent :=
  intros;
  let H := fresh in
  intro H; repeat (apply elem_of_cons in H as [H|H]; [discriminate H|]);
  by apply elem_of_nil in H.

Module MiddlewareFacts.

Lemma setConfigDefaults_idempotent config :
  setConfigDefaults (setConfigDefaults config) = setConfigDefaults config.
Proof.
  unfold setConfigDefaults.
  cbn [MwClient LoginRedirectURL MwSessionKey OnError].
  destruct (String.eqb_spec (LoginRedirectURL config) "") as [|Hu],
           (String.eqb_spec (MwSessionKey config) "") as [|Hk]; cbn [String.eqb Ascii.eqb];
    rewrite ?(proj2 (String.eqb_neq _ _) Hu), ?(proj2 (String.eqb_neq _ _) Hk); done.
Qed.

Lemma defaults_key config : MwSessionKey (setConfigDefaults config) = contextKey config.
Proof.
  unfold contextKey. cbn [setConfigDefaults MwSessionKey].
  destruct (String.eqb_spec (MwSessionKey config) ""); by case_decide.
Qed.

Lemma defaults_url config : LoginRedirectURL (setConfigDefaults config) = loginURL config.
Proof.
  unfold loginURL. cbn [setConfigDefaults LoginRedirectURL].
  destruct (String.eqb_spec (LoginRedirectURL config) ""); by case_decide.
Qed.

(** The two ways [getSessionFromCookie] ends for a client that is not nil:
    with the record of a valid session after one query, or with an error
    after at most one query. *)
Lemma getSessionFromCookie_cases config client c now :
  MwClient config = Some client →
  (∃ sessionID r,
     valid_session client c now sessionID r
     ∧ getSessionFromCookie c now config
       = ([StoreQuery sessionQuery sessionID], Ok r))
  ∨ ((∀ sessionID r, ¬ valid_session client c now sessionID r)
     ∧ ∃ trace err,
         getSessionFromCookie c now config = (trace, Err err)
         ∧ (trace = []
            ∨ ∃ sessionID, Cookie c (sessionCookieName client) = Some sessionID
                           ∧ trace = [StoreQuery sessionQuery sessionID])).
Proof.
  intros Hclient. unfold getSessionFromCookie, valid_session. rewrite Hclient.
  destruct (Cookie c (sessionCookieName client)) as [sessionID|] eqn:Hcookie.
  2: { right. split; [by intros ? ? (? & _)|]. eexists _, _. split; [done | by left]. }
  destruct (String.eqb_spec sessionID "") as [->|Hne].
  { right. split; [by intros ? ? ([= <-] & ? & _)|]. eexists _, _. split; [done | by left]. }
  unfold GetRawSession. rewrite (proj2 (String.eqb_neq _ _) Hne). cbn [orb].
  destruct (Z.ltb_spec 255 (len sessionID)) as [Hlong|Hlen].
  { right. split; [intros ? ? ([= <-] & _ & ? & _); lia|].
    eexists _, _. split; [done | by left]. }
  destruct (QueryRowScan (db client) sessionQuery sessionID) as [r|err] eqn:Hrow.
  - unfold GoTime.After. destruct (Z.ltb_spec (ExpireDate r) now) as [Hexp|Hlive].
    + right. split.
      * intros ? r' ([= <-] & _ & _ & Hrow' & Hnow). rewrite Hrow in Hrow'.
        injection Hrow' as <-. lia.
      * eexists _, _. split; [done|]. right. by exists sessionID.
    + left. by exists sessionID, r.
  - right. split.
    + intros ? r' ([= <-] & _ & _ & Hrow' & _). by rewrite Hrow in Hrow'.
    + destruct (errors_Is err pgx_ErrNoRows); eexists _, _; (split; [done|]); right;
        by exists sessionID.
Qed.

End MiddlewareFacts.

(** ** The signature's shape *)

Module ShapeFacts.

Lemma Sum_length msg : length (SHA256.Sum msg) = 32%nat.
Proof. unfold SHA256.Sum. by rewrite length_map. Qed.

Lemma HMAC_length key msg : length (HMAC.SHA256 key msg) = 32%nat.
Proof. apply Sum_length. Qed.

Lemma nopad_length_32 data :
  length data = 32%nat → String.length (base64url_nopad data) = 43%nat.
Proof.
  intros Hlen.
  do 32 (destruct data as [|? data]; [done|]).
  destruct data; [reflexivity | done].
Qed.

End ShapeFacts.

(** * The claims *)

Import GoStrings StringFacts Base62Facts Base64Facts Base64Round SignerFacts SessionFacts.

(** Closed goals about concrete inputs are settled by evaluation, one
    conjunct after the other. *)
Ltac by_computation :=
  lazymatch goal with
  | |- _ ∧ _ => split; [vm_compute; reflexivity | by_computation]
  | |- _ => vm_compute; reflexivity
  end.

Section Claims.
Context `{!Zlib, !JSON}.

(** C1, as amended.  When the clock does not read the least [int64]
    second, [SignTimestamp ds now v] is [v sep base62(unix seconds of now)
    sep base64url_nopad(HMAC-SHA256(key, v sep base62(...)))] with [key =
    SHA256(salt ++ "signer" ++ secret)] and [sep] the signer's separator
    ([Spec.token], base 62 as the specification describes it, a string
    that denotes the number); with the separator [":"], which every signer
    the package builds has, this is the form claimed.  [SignObject] signs
    the value [["."] base64url_nopad(data)], where [data] is the JSON text
    or its zlib compression, and the value starts with the marker ["."]
    exactly when compression was requested. *)
Theorem C1_wire_format ds now v obj compress :
  GoTime.Unix_of now ≠ Int64.min →
  SignTimestamp ds now v
    = Spec.token (Sep ds) (SecretKey ds) (Salt ds) v (GoTime.Unix_of now)
  ∧ (Sep ds = ":" →
     SignTimestamp ds now v
       = Spec.token ":" (SecretKey ds) (Salt ds) v (GoTime.Unix_of now))
  ∧ b62_denotes (Spec.base62 (GoTime.Unix_of now)) = Some (GoTime.Unix_of now)
  ∧ SignObject ds now obj compress =
      match json_Marshal obj with
      | Some json_bytes =>
          Ok (Spec.token (Sep ds) (SecretKey ds) (Salt ds)
                (Spec.object_value compress
                   (if compress then zlib_compress json_bytes else json_bytes))
                (GoTime.Unix_of now))
      | None => Err (Errorf_w "json encode error" (LibraryError "encoding/json"))
      end
  ∧ (∀ payload,
       (∃ rest, Spec.object_value compress payload = String "." rest) ↔ compress = true)
  ∧ (∀ secretKey salt,
       Sep (NewDjangoSigner secretKey) = ":" ∧ Sep (sessionSigner secretKey salt) = ":")
  ∧ ∀ config c, NewClient config = Ok c → Sep (signer c) = ":".
Proof.
  intros Hclock.
  assert (∀ value, SignTimestamp ds now value
                   = Spec.token (Sep ds) (SecretKey ds) (Salt ds) value
                       (GoTime.Unix_of now)) as Hst.
  { intros value. unfold SignTimestamp, Spec.token, Spec.derived_key, signature, saltedHMAC.
    rewrite SpecFacts.b62Encode_base62.
    - rewrite b64Encode_nopad, !app_assoc. done.
    - pose proof (Unix_of_in_range now) as Hrange.
      unfold Int64.InRange in Hrange. lia. }
  split; [apply Hst|]. split; [intros <-; apply Hst|].
  split; [apply SpecValue.base62_denotes|].
  split; [|split; [|split; [done|]]].
  - unfold SignObject. destruct (json_Marshal obj) as [json_bytes|]; [|done].
    destruct compress; rewrite Hst; unfold Spec.object_value;
      by rewrite b64Encode_nopad.
  - intros payload. unfold Spec.object_value. destruct compress.
    + split; [done|]. intros _. by eexists.
    + split; [|done]. intros [rest Hrest]. cbn [String.append] in Hrest.
      rewrite <- b64Encode_nopad in Hrest. by apply b64Encode_no_marker in Hrest.
  - intros config c. unfold NewClient. destruct (DB config); [|done].
    destruct (String.eqb _ ""); [done|]. by intros [= <-].
Qed.

(** C2, as amended.  For a signer whose separator is [":"], for every
    object [obj] that [json.Marshal] accepts and for both values of
    [compress], [UnsignObject(SignObject(obj, compress))]
    without a maximum age succeeds and returns the object [json.Unmarshal]
    reads from the JSON text of [obj] (its zlib round trip being lossless
    when compressed); that object is [obj] itself whenever the JSON text of
    [obj] decodes to [obj]. *)
Theorem C2_roundtrip_through_json ds now0 now obj compress jsonData decoded :
  Sep ds = ":" →
  json_Marshal obj = Some jsonData →
  json_Unmarshal jsonData = Some decoded →
  (compress = true → zlib_decompress (zlib_compress jsonData) = Inflated jsonData) →
  ∃ token, SignObject ds now0 obj compress = Ok token
           ∧ UnsignObject ds now token None = Ok decoded.
Proof. apply sign_unsign_object. Qed.

(** C3, as amended.  A token signed by a signer whose separator is [":"]
    when the clock read [now0] (not the least [int64] second) and verified
    at [now] with the maximum age [D]: with [age] the [time.Since] of the
    token's timestamp, [UnsignTimestamp] returns the signed value whenever
    [age <= D], and whenever [age > D] it fails with the error
    ["signature age ... > ..."], which is not [ErrSessionExpired]. *)
Theorem C3_age_enforcement ds now0 now v D :
  Sep ds = ":" →
  GoTime.Unix_of now0 ≠ Int64.min →
  let age := GoTime.Since now (GoTime.Unix (GoTime.Unix_of now0) 0) in
  (age <= D → UnsignTimestamp ds now (SignTimestamp ds now0 v) (Some D) = Ok v)
  ∧ (D < age →
     UnsignTimestamp ds now (SignTimestamp ds now0 v) (Some D)
       = Err (Errorf_signature_age age D)
     ∧ errors_Is (Errorf_signature_age age D) ErrSessionExpired = false).
Proof.
  intros HS Hmin age.
  destruct (UnsignTimestamp_signed ds now0 now v (Some D) HS) as (ts & _ & Hts & ->).
  rewrite (Hts Hmin). fold age. cbv zeta. split.
  - intros Hle. by rewrite (proj2 (Z.ltb_ge _ _)).
  - intros Hlt. by rewrite (proj2 (Z.ltb_lt _ _)).
Qed.

(** C9, as amended.  When [additionalData] holds ["_auth_user_id"] with the
    value [w], the map [EncodeSessionDataWithSalt] signs holds [w], not the
    [userID] argument, under that key, and the session it produces decodes
    to what the JSON decoder reads from the JSON text of that map.  Where
    the decoder reads the identity field back as [encoding/json] does
    ([json_reread]: an ASCII string unchanged, an [int] as the nearest
    [float64]), the decoded field is [w] for such a string, and decoding
    the session returns it; for an [int] it is the nearest [float64], and
    decoding returns that number as [%.0f] prints it; whatever becomes of
    the other entries. *)
Theorem C9_additional_data_overrides userID secretKey salt additionalData w compress
    now0 now jsonData decoded :
  entries additionalData !! "_auth_user_id" = Some w →
  json_Marshal (Map (encodedSession userID additionalData)) = Some jsonData →
  json_Unmarshal jsonData = Some decoded →
  (compress = true → zlib_decompress (zlib_compress jsonData) = Inflated jsonData) →
  encodedSession userID additionalData !! "_auth_user_id" = Some w
  ∧ ∃ token,
      EncodeSessionDataWithSalt now0 userID secretKey salt additionalData compress = Ok token
      ∧ UnsignObject (sessionSigner secretKey salt) now token None = Ok decoded
      ∧ ((∀ v v', encodedSession userID additionalData !! "_auth_user_id" = Some v →
                  json_reread v = Some v' →
                  entries decoded !! "_auth_user_id" = Some v') →
         (∀ w', json_reread w = Some w' →
                entries decoded !! "_auth_user_id" = Some w'
                ∧ DecodeSessionDataWithSalt now token secretKey salt 0
                  = userIDOf (Map {["_auth_user_id" := w']}))
         ∧ (∀ s, w = VString s → ascii_only s = true →
                 entries decoded !! "_auth_user_id" = Some (VString s)
                 ∧ DecodeSessionDataWithSalt now token secretKey salt 0 = Ok s)
         ∧ (∀ n, w = VInt n →
                 entries decoded !! "_auth_user_id" = Some (VFloat64 (nearest_float64 n))
                 ∧ DecodeSessionDataWithSalt now token secretKey salt 0
                   = Ok (fmt_f0 (nearest_float64 n)))).
Proof.
  intros Hw HM HU HZ.
  assert (encodedSession userID additionalData !! "_auth_user_id" = Some w) as Hfield
    by by rewrite encodedSession_lookup, Hw.
  split; [done|].
  destruct (sign_unsign_object (sessionSigner secretKey salt) now0 now _ compress
              _ _ eq_refl HM HU HZ) as (token & Hsign & Hunsign).
  exists token. split; [done|]. split; [done|]. intros Hread.
  assert (∀ w', json_reread w = Some w' →
                entries decoded !! "_auth_user_id" = Some w'
                ∧ DecodeSessionDataWithSalt now token secretKey salt 0
                  = userIDOf (Map {["_auth_user_id" := w']})) as Hany.
  { intros w' Hw'. pose proof (Hread w w' Hfield Hw') as Hdec. split; [done|].
    unfold DecodeSessionDataWithSalt. cbv zeta. change (0 <? 0) with false. cbv iota.
    rewrite Hunsign. unfold userIDOf. cbn [entries]. by rewrite Hdec, lookup_singleton_eq. }
  split; [done|]. split.
  - intros s -> Hs. destruct (Hany (VString s)) as [Hdec ->].
    + cbn [json_reread]. by rewrite Hs.
    + split; [done|]. unfold userIDOf. cbn [entries]. by rewrite lookup_singleton_eq.
  - intros n ->. destruct (Hany (VFloat64 (nearest_float64 n)) eq_refl) as [Hdec ->].
    split; [done|]. unfold userIDOf. cbn [entries]. by rewrite lookup_singleton_eq.
Qed.

(** C10, as amended.  When the token decodes to an allocated map
    [existing], [UpdateSessionDataWithSalt] signs the map [updated] that
    has no entry for a key [updates] maps to [nil], the value of [updates]
    for a key it maps to anything else, and the entry of [existing] for
    every other key; if [json.Marshal] accepts [updated], the new token
    decodes to what the JSON decoder reads from its JSON text. *)
Theorem C10_update_frame now0 now sessionData secretKey salt updates compress
    (existing : gmap string value) :
  UnsignObject (sessionSigner secretKey salt) now0 sessionData None = Ok (Map existing) →
  ∃ updated,
    (∀ key, updated !! key =
              match entries updates !! key with
              | Some VNil => None
              | Some v => Some v
              | None => existing !! key
              end)
    ∧ ∀ jsonData decoded,
        json_Marshal (Map updated) = Some jsonData →
        json_Unmarshal jsonData = Some decoded →
        (compress = true → zlib_decompress (zlib_compress jsonData) = Inflated jsonData) →
        ∃ token,
          UpdateSessionDataWithSalt now0 sessionData secretKey salt updates compress
            = Ok token
          ∧ UnsignObject (sessionSigner secretKey salt) now token None = Ok decoded.
Proof.
  intros Hold. destruct (applyUpdates_Map existing updates) as (updated & Happ & Hlook).
  exists updated. split; [done|]. intros jsonData decoded HM HU HZ.
  destruct (sign_unsign_object (sessionSigner secretKey salt) now0 now _ compress
              _ _ eq_refl HM HU HZ) as (token & Hsign & Hunsign).
  exists token. split; [|done].
  unfold UpdateSessionDataWithSalt. rewrite Hold, Happ. done.
Qed.

End Claims.

(** C4, at the failing inputs.  [Unsign] fails on a string without
    separator and on a forged signature, each time with a fresh error that
    is not the sentinel [ErrInvalidSignature]. *)
Theorem C4_Unsign_errors :
  Unsign Demo.ds "abc" = Err (New "no separator found in value")
  ∧ errors_Is (New "no separator found in value") ErrInvalidSignature = false
  ∧ Unsign Demo.ds Demo.forged = Err (New "signature does not match")
  ∧ errors_Is (New "signature does not match") ErrInvalidSignature = false.
Proof. by_computation. Qed.

(** C5, as amended.  The identity is the value under ["_auth_user_id"]: a
    string is returned unchanged; an [int] in decimal; a [float64] as
    [%.0f] prints it, with no check that it is integer-valued: the value
    rounded to the nearest integer, ties to even, in plain decimal, which
    for an integer-valued number is its decimal integer representation,
    but for negative zero, printed ["-0"] (as is every negative number
    that rounds to zero); an absent key and a value of any other type are
    errors; 12345, stored as an [int] or as a [float64], gives ["12345"]. *)
Theorem C5_identity_extraction (sessionMap : gomap) :
  match entries sessionMap !! "_auth_user_id" with
  | None => userIDOf sessionMap = Err (New "_auth_user_id not found in session")
  | Some (VString s) => userIDOf sessionMap = Ok s
  | Some (VInt n) => userIDOf sessionMap = Ok (fmt_d n)
  | Some (VFloat64 f) =>
      userIDOf sessionMap = Ok (fmt_f0 f)
      ∧ (∀ z, float64_integer f = Some z →
              fmt_f0 f = match f with S754_zero true => "-0" | _ => fmt_d z end)
      ∧ (∀ s m e, f = S754_finite s m e →
           fmt_f0 f = (if s then "-" else "") +:+ fmt_d (round_half_even (Z.pos m) e))
  | Some v => userIDOf sessionMap = Err (Errorf_user_ID_type (fmt_T v))
  end
  ∧ userIDOf (Map {["_auth_user_id" := VInt 12345]}) = Ok "12345"
  ∧ userIDOf (Map {["_auth_user_id" := VFloat64 (FlatJSON.float64_of_Z false 12345)]})
    = Ok "12345"
  ∧ float64_integer (S754_zero true) = Some 0
  ∧ userIDOf (Map {["_auth_user_id" := VFloat64 (S754_zero true)]}) = Ok "-0".
Proof.
  split; [|by_computation].
  unfold userIDOf. destruct (entries sessionMap !! "_auth_user_id") as [[]|]; try done.
  split; [done|]. split.
  - intros z Hz.
    assert (f = S754_zero true ∨ f ≠ S754_zero true) as [->|Hf]
      by (destruct f as [[]| | |]; (by left) || (by right)); [done|].
    rewrite (fmt_f0_integer f z Hz Hf). by destruct f as [[]| | |].
  - intros s m e ->. unfold fmt_f0, fmt_d.
    assert (0 <= round_half_even (Z.pos m) e) as Hr.
    { unfold round_half_even. destruct (0 <=? e) eqn:He.
      - apply Z.leb_le in He. pose proof (Z.pow_pos_nonneg 2 e). lia.
      - apply Z.leb_gt in He.
        assert (0 < 2 ^ (- e)) by (apply Z.pow_pos_nonneg; lia).
        pose proof (Z.div_pos (Z.pos m) (2 ^ (- e))).
        cbv zeta. repeat case_match; lia. }
    rewrite (proj2 (Z.ltb_ge _ _)) by lia. cbn [String.append]. by rewrite Z.abs_eq.
Qed.

(** C6, as amended.  For a well-formed identifier whose record [r] the
    store returns, [GetRawSession] queries the store once and returns [r],
    payload still encoded, iff the check time is not after the expiry
    ([now <= ExpireDate r]); when the expiry is before the check time it
    returns [ErrSessionExpired]; no payload is handed to the signer. *)
Theorem C6_store_record_expiry (c : Client) (now : Z) (sessionKey : string) (r : RawSession) :
  sessionKey ≠ "" → len sessionKey <= 255 →
  QueryRowScan (db c) sessionQuery sessionKey = Scanned r →
  GetRawSession c now sessionKey =
    ([StoreQuery sessionQuery sessionKey],
     if ExpireDate r <? now then Err ErrSessionExpired else Ok r)
  ∧ (snd (GetRawSession c now sessionKey) = Ok r ↔ now <= ExpireDate r)
  ∧ (ExpireDate r < now → snd (GetRawSession c now sessionKey) = Err ErrSessionExpired)
  ∧ ∀ payload, SignerCall payload ∉ fst (GetRawSession c now sessionKey).
Proof.
  intros Hne Hlen Hrow.
  assert (GetRawSession c now sessionKey =
            ([StoreQuery sessionQuery sessionKey],
             if ExpireDate r <? now then Err ErrSessionExpired else Ok r)) as ->.
  { unfold GetRawSession.
    rewrite (proj2 (String.eqb_neq _ _) Hne), (proj2 (Z.ltb_ge _ _) Hlen), Hrow. cbn [orb].
    unfold GoTime.After. by destruct (ExpireDate r <? now). }
  split; [done|]. cbn [fst snd]. repeat split.
  - destruct (Z.ltb_spec (ExpireDate r) now); [done | lia].
  - intros Hle. by rewrite (proj2 (Z.ltb_ge _ _)).
  - intros Hlt. by rewrite (proj2 (Z.ltb_lt _ _)).
  - intros payload [H|H]%elem_of_cons; [done | by apply elem_of_nil in H].
Qed.

(** C7.  For an identifier that is empty or longer than 255 (bytes, hence
    also when it has more than 255 characters), [GetRawSession] returns
    [ErrSessionNotFound] and sends no query to the store; for a well-formed
    identifier, a store error that is [pgx.ErrNoRows] gives
    [ErrSessionNotFound] too. *)
Theorem C7_malformed_identifier (c : Client) (now : Z) (sessionKey : string) :
  (sessionKey = "" ∨ 255 < len sessionKey →
   GetRawSession c now sessionKey = ([], Err ErrSessionNotFound))
  ∧ (∀ err, sessionKey ≠ "" → len sessionKey <= 255 →
       QueryRowScan (db c) sessionQuery sessionKey = ScanError err →
       errors_Is err pgx_ErrNoRows = true →
       GetRawSession c now sessionKey
         = ([StoreQuery sessionQuery sessionKey], Err ErrSessionNotFound)).
Proof.
  split.
  - intros [-> | Hlong]; [done|]. unfold GetRawSession.
    by rewrite (proj2 (Z.ltb_lt _ _) Hlong), orb_true_r.
  - intros err Hne Hlen Hrow Hno. unfold GetRawSession.
    rewrite (proj2 (String.eqb_neq _ _) Hne), (proj2 (Z.ltb_ge _ _) Hlen), Hrow, Hno. done.
Qed.

(** C8, at the failing input.  The least [int64] encodes to ["-"], which
    decodes to 0. *)
Theorem C8_b62_least_int64 :
  Int64.min = -9223372036854775808
  ∧ b62Encode Int64.min = "-"
  ∧ b62Decode (b62Encode Int64.min) = Ok 0.
Proof. by_computation. Qed.

(** * The claims on concrete inputs *)

Section Samples.
#[local] Existing Instance StoredZlib.codec.
#[local] Existing Instance FlatJSON.codec.

Lemma C1_witness :
  Sep Demo.ds = ":"
  ∧ SignTimestamp Demo.ds Demo.t0 "hello:world"
    = "hello:world:1vEi4e:oW-jUfO6U0crkOab1FTM5uXQ39Lq8UZCIBVsSZ4e5tI".
Proof.
  split; [reflexivity|].
  assert (GoTime.Unix_of Demo.t0 ≠ Int64.min) as Hclock by (vm_compute; discriminate).
  rewrite (proj1 (proj2 (C1_wire_format Demo.ds Demo.t0 "hello:world" Demo.session true
                           Hclock)) eq_refl).
  vm_compute. reflexivity.
Defined.

(** C1 fails for a signer with another separator: the token holds that
    separator where the claimed form has [":"]. *)
Lemma C1_counterexample :
  Sep Demo.dashed = "-"
  ∧ SignTimestamp Demo.dashed Demo.t0 "hello"
    = "hello-1vEi4e-Cnlc-2NMwRAsecT7a04VSsgEZfQj_0AiyQCkd6iDhFc"
  ∧ Spec.token ":" (SecretKey Demo.dashed) (Salt Demo.dashed) "hello"
      (GoTime.Unix_of Demo.t0)
    = "hello:1vEi4e:DuIY5u9u9uWZqdcgV2yZr8JwQpDe-Q9qCZkkCSrAocY".
Proof. by_computation. Qed.

Lemma C2_witness :
  ∃ token, SignObject Demo.ds Demo.t0 Demo.session true = Ok token
           ∧ UnsignObject Demo.ds (Demo.t0 + 86400 * GoTime.Second) token None
             = Ok Demo.session.
Proof.
  eapply (C2_roundtrip_through_json Demo.ds Demo.t0 _ Demo.session true).
  - reflexivity.
  - by vm_compute.
  - by vm_compute.
  - intros _. by vm_compute.
Defined.

(** C2 fails on an [int] that is no [float64]: the object comes back with
    another number under the key.  It also fails for a signer whose
    separator is a character of the base64url alphabet: the token it makes
    does not verify when the signature holds that character. *)
Lemma C2_counterexample :
  (∃ token decoded,
     SignObject Demo.ds Demo.t0 Demo.counter false = Ok token
     ∧ UnsignObject Demo.ds Demo.t0 token None = Ok decoded
     ∧ entries Demo.counter !! "n" = Some (VInt Demo.big)
     ∧ entries decoded !! "n" = Some (VFloat64 Demo.big_read_back)
     ∧ float64_integer Demo.big_read_back = Some (Demo.big - 1)
     ∧ decoded ≠ Demo.counter)
  ∧ ∃ token,
      SignObject Demo.dashed Demo.t0 Demo.session false = Ok token
      ∧ UnsignObject Demo.dashed Demo.t0 token None
        = Err (New "signature does not match").
Proof.
  split.
  - eexists _, (Map {["n" := VFloat64 Demo.big_read_back]}).
    split; [vm_compute; reflexivity|]. split; [vm_compute; reflexivity|].
    split; [vm_compute; reflexivity|]. split; [vm_compute; reflexivity|].
    split; [vm_compute; reflexivity|].
    intros H. apply (f_equal (fun g => entries g !! "n")) in H. by vm_compute in H.
  - eexists. split; [vm_compute; reflexivity|]. vm_compute. reflexivity.
Qed.

Lemma C3_witness :
  UnsignTimestamp Demo.ds (Demo.t0 + 10 * GoTime.Second)
    (SignTimestamp Demo.ds Demo.t0 "hello") (Some (20 * GoTime.Second)) = Ok "hello".
Proof.
  apply (C3_age_enforcement Demo.ds Demo.t0 (Demo.t0 + 10 * GoTime.Second) "hello"
           (20 * GoTime.Second)).
  - reflexivity.
  - by vm_compute.
  - by vm_compute.
Defined.

(** C3 fails on the error: twenty seconds after signing, with a maximum
    age of ten, the error is no [ErrSessionExpired].  It also fails for a
    signer whose separator is a character of the base64url alphabet: the
    token is refused whatever its age. *)
Lemma C3_counterexample :
  UnsignTimestamp Demo.ds (Demo.t0 + 20 * GoTime.Second)
    (SignTimestamp Demo.ds Demo.t0 "hello") (Some (10 * GoTime.Second))
    = Err (Errorf_signature_age 20000000005 10000000000)
  ∧ errors_Is (Errorf_signature_age 20000000005 10000000000) ErrSessionExpired = false
  ∧ UnsignTimestamp Demo.dashed Demo.t0
      (SignTimestamp Demo.dashed Demo.t0 "hello") (Some (10 * GoTime.Second))
    = Err (New "signature does not match").
Proof. by_computation. Qed.

Lemma C5_witness :
  fmt_f0 (FlatJSON.float64_of_Z false 12345) = fmt_d 12345.
Proof.
  pose proof (C5_identity_extraction
                (Map {["_auth_user_id" := VFloat64 (FlatJSON.float64_of_Z false 12345)]}))
    as [H _].
  cbn [entries] in H. rewrite lookup_singleton_eq in H. destruct H as (_ & H & _).
  apply (H 12345). vm_compute. reflexivity.
Defined.

(** C5 fails on a number that is no integer: 12345.75 is accepted and
    rounded. *)
Lemma C5_counterexample :
  float64_integer Demo.fractional = None
  ∧ userIDOf (Map {["_auth_user_id" := VFloat64 Demo.fractional]}) = Ok "12346".
Proof. split; by vm_compute. Qed.

Lemma C6_witness :
  GetRawSession (Demo.client 2000) 1000 "abc"
    = ([StoreQuery sessionQuery "abc"], Ok (Demo.row 2000)).
Proof.
  apply (C6_store_record_expiry (Demo.client 2000) 1000 "abc" (Demo.row 2000)).
  - done.
  - by vm_compute.
  - reflexivity.
Defined.

(** C6 fails at the boundary: a record that expires exactly at the check
    time, so not strictly in the future, is returned. *)
Lemma C6_counterexample :
  GetRawSession (Demo.client 1000) 1000 "abc"
    = ([StoreQuery sessionQuery "abc"], Ok (Demo.row 1000))
  ∧ ExpireDate (Demo.row 1000) = 1000.
Proof. split; by vm_compute. Qed.

Lemma C7_witness :
  len (Repeat "1" 256) = 256
  ∧ GetRawSession (Demo.client 2000) 1000 (Repeat "1" 256) = ([], Err ErrSessionNotFound)
  ∧ GetRawSession (Demo.client 2000) 1000 "missing"
    = ([StoreQuery sessionQuery "missing"], Err ErrSessionNotFound).
Proof.
  split; [by vm_compute|]. split.
  - apply (proj1 (C7_malformed_identifier (Demo.client 2000) 1000 (Repeat "1" 256))).
    right. by vm_compute.
  - apply (proj2 (C7_malformed_identifier (Demo.client 2000) 1000 "missing") pgx_ErrNoRows).
    + done.
    + by vm_compute.
    + reflexivity.
    + reflexivity.
Defined.

Lemma C9_witness :
  ∃ token,
    EncodeSessionDataWithSalt Demo.t0 "42" Demo.secret "salt" Demo.override true = Ok token
    ∧ entries Demo.override !! "n" = Some (VInt 5)
    ∧ DecodeSessionDataWithSalt Demo.t0 token Demo.secret "salt" 0 = Ok "admin".
Proof.
  destruct (C9_additional_data_overrides "42" Demo.secret "salt" Demo.override
              (VString "admin") true Demo.t0 Demo.t0 Demo.override_json
              (Map (<["_auth_user_id" := VString "admin"]>
                      {["n" := VFloat64 (nearest_float64 5)]})))
    as (_ & token & Henc & _ & Hread).
  - vm_compute. reflexivity.
  - vm_compute. reflexivity.
  - vm_compute. reflexivity.
  - intros _. vm_compute. reflexivity.
  - destruct Hread as (_ & Hstring & _).
    + intros v v' Hv Hv'. vm_compute in Hv. injection Hv as <-.
      vm_compute in Hv'. injection Hv' as <-. vm_compute. reflexivity.
    + exists token. split; [exact Henc|]. split; [vm_compute; reflexivity|].
      exact (proj2 (Hstring "admin" eq_refl eq_refl)).
Defined.

(** C9 fails on an [int] that is no [float64]: the decoded field, and
    with it the decoded identity, is neither the argument "7" nor the
    value given in the additional data. *)
Lemma C9_counterexample :
  ∃ token decoded,
    EncodeSessionData Demo.t0 "7" Demo.secret
      (Map {["_auth_user_id" := VInt Demo.snowflake]}) = Ok token
    ∧ UnsignObject (sessionSigner Demo.secret "django.contrib.sessions.SessionStore")
        Demo.t0 token None = Ok decoded
    ∧ entries decoded !! "_auth_user_id" = Some (VFloat64 Demo.snowflake_read_back)
    ∧ DecodeSessionData Demo.t0 token Demo.secret = Ok "1234567890123456768"
    ∧ fmt_d Demo.snowflake = "1234567890123456789"
    ∧ nearest_float64 Demo.snowflake = Demo.snowflake_read_back.
Proof.
  eexists _, (Map {["_auth_user_id" := VFloat64 Demo.snowflake_read_back]}).
  by_computation.
Qed.

Lemma C10_witness :
  ∃ token,
    UpdateSessionDataWithSalt Demo.t0 Demo.token Demo.secret
      "django.contrib.sessions.SessionStore" Demo.updates true = Ok token
    ∧ UnsignObject Demo.ds Demo.t0 token None = Ok (Map {["theme" := VString "dark"]}).
Proof.
  destruct (C10_update_frame Demo.t0 Demo.t0 Demo.token Demo.secret
              "django.contrib.sessions.SessionStore" Demo.updates true
              {["_auth_user_id" := VString "42"]})
    as (updated & Hlook & Hsigned).
  - by vm_compute.
  - assert (updated = {["theme" := VString "dark"]}) as ->.
    { apply map_eq. intros key. rewrite Hlook. unfold Demo.updates. cbn [entries].
      destruct (decide (key = "_auth_user_id")) as [->|Hid]; [by vm_compute|].
      rewrite lookup_insert_ne by congruence.
      destruct (decide (key = "theme")) as [->|Hth]; [by vm_compute|].
      by rewrite !lookup_singleton_ne by congruence. }
    eapply Hsigned.
    + by vm_compute.
    + by vm_compute.
    + intros _. by vm_compute.
Defined.

(** C10 fails on an [int] that is no [float64]: the key set by the update
    decodes to another number. *)
Lemma C10_counterexample :
  ∃ token decoded,
    UnsignObject Demo.ds Demo.t0 Demo.token None = Ok Demo.session
    ∧ UpdateSessionData Demo.t0 Demo.token Demo.secret Demo.counter = Ok token
    ∧ UnsignObject Demo.ds Demo.t0 token None = Ok decoded
    ∧ entries Demo.counter !! "n" = Some (VInt Demo.big)
    ∧ entries decoded !! "n" = Some (VFloat64 Demo.big_read_back)
    ∧ entries decoded !! "_auth_user_id" = Some (VString "42").
Proof.
  eexists _, (Map (<["n" := VFloat64 Demo.big_read_back]> (entries Demo.session))).
  by_computation.
Qed.

End Samples.

(** * Further properties *)

(** X1.  [b62Decode] inverts [b62Encode] on every [int64] above the least. *)
Theorem b62_decode_inverts_encode n :
  Int64.min < n <= Int64.max → b62Decode (b62Encode n) = Ok n.
Proof. apply b62_roundtrip. Qed.

Lemma b62_decode_inverts_encode_witness :
  b62Decode (b62Encode (-1761890000)) = Ok (-1761890000).
Proof. apply b62_decode_inverts_encode. by vm_compute. Defined.

(** X2.  [b64Decode] inverts [b64Encode], and [b64Encode] writes base64url
    without padding. *)
Theorem b64_decode_inverts_encode data :
  b64Decode (b64Encode data) = Ok data ∧ b64Encode data = base64url_nopad data.
Proof. split; [apply b64_roundtrip | apply b64Encode_nopad]. Qed.

(** X3.  [Unsign] with the separator [":"]: it fails for want of a separator
    exactly on the strings that hold none; otherwise it splits at the last
    separator and returns what stands before it iff what stands after it is
    the signature of that value; so it accepts exactly the strings
    [v ":" signature(v)], whatever separators [v] holds. *)
Theorem Unsign_last_separator ds s :
  Sep ds = ":" →
  (mem ":" s = false → Unsign ds s = Err (New "no separator found in value"))
  ∧ (mem ":" s = true →
     ∃ v sig, s = v +:+ String ":" sig ∧ mem ":" sig = false
              ∧ Unsign ds s = if String.eqb sig (signature ds v) then Ok v
                              else Err (New "signature does not match"))
  ∧ (∀ v, Unsign ds s = Ok v ↔ s = v +:+ String ":" (signature ds v)).
Proof.
  intros HS. split; [by apply Unsign_no_sep|]. split.
  - intros Hm. destruct (split_last _ _ Hm) as (v & sig & -> & Hsig).
    exists v, sig. by rewrite Unsign_split.
  - intros v. split.
    + intros HU. destruct (mem ":" s) eqn:Hm.
      * destruct (split_last _ _ Hm) as (v' & sig & -> & Hsig).
        rewrite Unsign_split in HU by done.
        destruct (String.eqb_spec sig (signature ds v')) as [->|]; [|done].
        by injection HU as ->.
      * by rewrite Unsign_no_sep in HU.
    + intros ->. by apply Unsign_signed.
Qed.

Lemma Unsign_last_separator_witness :
  Unsign Demo.ds ("a:b:c" +:+ String ":" (signature Demo.ds "a:b:c")) = Ok "a:b:c".
Proof.
  apply (proj2 (proj2 (Unsign_last_separator Demo.ds _ eq_refl))). reflexivity.
Defined.

(** X4.  [b62Decode] never panics and never reports an overflow: on an optional
    ["-"] followed by base-62 digits it returns the number they denote
    ([b62_denotes]) reduced to an [int64] by wrap-around; on any other
    string it returns the error "invalid base62 character".  The empty
    string and ["-"] denote 0. *)
Theorem b62Decode_wraps s :
  b62Decode s =
    match b62_denotes s with
    | Some v => Ok (Int64.wrap v)
    | None => Err Errorf_base62_character
    end.
Proof. apply Base62Value.decode_denotes. Qed.

(** X5.  A signature is always 43 characters of the URL-safe base64 alphabet:
    the unpadded encoding of the 32 bytes of an HMAC-SHA256; it holds no
    separator, no padding and no compression marker, whatever the signer
    and the value. *)
Theorem signature_shape ds value :
  len (signature ds value) = 43
  ∧ Base64Facts.url_chars (signature ds value) = true
  ∧ mem ":" (signature ds value) = false
  ∧ mem "=" (signature ds value) = false
  ∧ mem "." (signature ds value) = false.
Proof.
  unfold signature. cbv zeta. split.
  - unfold len. rewrite b64Encode_nopad, ShapeFacts.nopad_length_32; [done|].
    apply ShapeFacts.HMAC_length.
  - pose proof (b64Encode_url_chars (saltedHMAC ds (Salt ds +:+ "signer") value)) as Hurl.
    split; [done|]. split; [by apply url_chars_no_sep|].
    split.
    + clear -Hurl. induction (b64Encode _) as [|c s IH]; [done|].
      cbn [url_chars] in Hurl. apply andb_prop in Hurl as [Hc Hs].
      cbn [mem]. rewrite (IH Hs), orb_false_r.
      apply url_char_plain in Hc as (_ & _ & Hc & _). by apply Ascii.eqb_neq.
    + clear -Hurl. induction (b64Encode _) as [|c s IH]; [done|].
      cbn [url_chars] in Hurl. apply andb_prop in Hurl as [Hc Hs].
      cbn [mem]. rewrite (IH Hs), orb_false_r.
      apply url_char_plain in Hc as (_ & Hc & _). by apply Ascii.eqb_neq.
Qed.

(** X6.  A signer made by [NewDjangoSigner] reads back what it signs with a
    timestamp: for every key, every value (separators included) and every
    pair of clock readings, [UnsignTimestamp] without a maximum age returns
    the value [SignTimestamp] signed. *)
Theorem NewDjangoSigner_timestamp_roundtrip secretKey now0 now value :
  UnsignTimestamp (NewDjangoSigner secretKey) now
    (SignTimestamp (NewDjangoSigner secretKey) now0 value) None = Ok value.
Proof.
  by destruct (UnsignTimestamp_signed (NewDjangoSigner secretKey) now0 now value None eq_refl)
    as (timestamp & _ & _ & ->).
Qed.

(** X7.  The strings [UnsignTimestamp] accepts, with the separator [":"]: it
    returns [v] exactly on the strings [v ":" ts ":" signature(v ":" ts)]
    where [ts] holds no separator and decodes as base 62 to a timestamp
    whose age does not exceed the maximum age, if one is given. *)
Theorem UnsignTimestamp_accepts ds now s maxAge v :
  Sep ds = ":" →
  UnsignTimestamp ds now s maxAge = Ok v ↔
  ∃ ts timestamp,
    s = (v +:+ String ":" ts) +:+ String ":" (signature ds (v +:+ String ":" ts))
    ∧ mem ":" ts = false
    ∧ b62Decode ts = Ok timestamp
    ∧ ∀ D, maxAge = Some D → GoTime.Since now (GoTime.Unix timestamp 0) <= D.
Proof. apply VerificationFacts.UnsignTimestamp_accepted. Qed.

Lemma UnsignTimestamp_accepts_witness :
  UnsignTimestamp Demo.ds (GoTime.Unix 1761890060 0)
    (SignTimestamp Demo.ds Demo.t0 "a:b") (Some (60 * GoTime.Second)) = Ok "a:b".
Proof.
  apply (UnsignTimestamp_accepts Demo.ds _ _ _ "a:b" eq_refl).
  exists "1vEi4e", 1761890000. split; [vm_compute; reflexivity|].
  split; [reflexivity|]. split; [vm_compute; reflexivity|].
  intros D [= <-]. apply Z.leb_le. vm_compute. reflexivity.
Defined.

Section Sessions.
Context `{!Zlib, !JSON}.

(** X8.  A string on which [Unsign] fails is rejected with that same error by
    [UnsignTimestamp] and [UnsignObject], whatever the maximum age and the
    clock; [DecodeSessionDataWithSalt] and [UpdateSessionDataWithSalt] wrap
    the error, and the client returns it as it is: nothing is decoded,
    inflated or parsed, and nothing is signed. *)
Theorem signature_failure_propagates now sessionData secretKey salt maxAgeSeconds
    updates compress e :
  Unsign (sessionSigner secretKey salt) sessionData = Err e →
  (∀ maxAge, UnsignTimestamp (sessionSigner secretKey salt) now sessionData maxAge = Err e)
  ∧ (∀ maxAge, UnsignObject (sessionSigner secretKey salt) now sessionData maxAge = Err e)
  ∧ DecodeSessionDataWithSalt now sessionData secretKey salt maxAgeSeconds
    = Err (Errorf_w "failed to unsign session" e)
  ∧ UpdateSessionDataWithSalt now sessionData secretKey salt updates compress
    = Err (Errorf_w "failed to decode existing session" e)
  ∧ (e = New "no separator found in value" ∨ e = New "signature does not match").
Proof.
  intros HU.
  pose proof (λ maxAge, ErrorFacts.UnsignObject_Unsign_error _ now _ maxAge _ HU) as Hall.
  split; [intros maxAge; apply Hall|]. split; [intros maxAge; apply Hall|].
  split; [|split; [|by apply VerificationFacts.Unsign_errors in HU]].
  - unfold DecodeSessionDataWithSalt. cbv zeta.
    destruct (0 <? maxAgeSeconds); by rewrite (proj2 (Hall _)).
  - unfold UpdateSessionDataWithSalt. cbv zeta. by rewrite (proj2 (Hall _)).
Qed.

(** X9.  No error of the decoding entry points is one of the package's
    sentinels: whatever the input, the error [DecodeSessionUserID] or
    [DecodeSessionDataWithSalt] returns neither is nor wraps
    [ErrInvalidSignature], [ErrSessionExpired], [ErrSessionNotFound] or
    [ErrUserNotFound], so [errors.Is] finds none of them. *)
Theorem decoding_errors_are_not_sentinels c now sessionData secretKey salt maxAgeSeconds
    e target :
  snd (DecodeSessionUserID c now sessionData) = Err e
  ∨ DecodeSessionDataWithSalt now sessionData secretKey salt maxAgeSeconds = Err e →
  target ∈ sentinels →
  errors_Is e target = false.
Proof.
  intros He Ht. apply ErrorFacts.errors_Is_sentinel_free; [|done].
  destruct He as [He|He].
  - unfold DecodeSessionUserID, decodeSessionData in He. cbn [snd] in He.
    destruct (if 0 <? maxAge c
              then UnsignObject (signer c) now sessionData (Some (maxAge c))
              else UnsignObject (signer c) now sessionData None) as [m|e'|] eqn:HU;
      cbn [mbind result_bind] in He; [by apply ErrorFacts.userIDOf_error_free in He| |done].
    injection He as <-.
    destruct (0 <? maxAge c); by apply ErrorFacts.UnsignObject_error_free in HU.
  - unfold DecodeSessionDataWithSalt in He. cbv zeta in He.
    destruct (if 0 <? maxAgeSeconds
              then UnsignObject (sessionSigner secretKey salt) now sessionData
                     (Some (Int64.wrap (maxAgeSeconds * GoTime.Second)))
              else UnsignObject (sessionSigner secretKey salt) now sessionData None)
      as [m|e'|] eqn:HU; [by apply ErrorFacts.userIDOf_error_free in He| |done].
    injection He as <-. cbn [sentinel_free].
    destruct (0 <? maxAgeSeconds); by apply ErrorFacts.UnsignObject_error_free in HU.
Qed.

End Sessions.

(** X10.  The signer uses its salt and its secret through their concatenation
    only, and its [Algorithm] not at all: two signers with the same
    separator for which [Salt ++ "signer" ++ SecretKey] is the same string
    sign alike and accept the same strings, so a token made under one salt
    verifies under another salt with a suitably shifted secret. *)
Theorem signers_with_equal_key_material ds ds' :
  Salt ds +:+ "signer" +:+ SecretKey ds = Salt ds' +:+ "signer" +:+ SecretKey ds' →
  Sep ds = Sep ds' →
  (∀ value, signature ds value = signature ds' value)
  ∧ (∀ now value, SignTimestamp ds now value = SignTimestamp ds' now value)
  ∧ (∀ s, Unsign ds s = Unsign ds' s)
  ∧ (∀ now s maxAge, UnsignTimestamp ds now s maxAge = UnsignTimestamp ds' now s maxAge).
Proof.
  intros Hkey Hsep.
  assert (∀ value, signature ds value = signature ds' value) as Hsig.
  { intros value. unfold signature, saltedHMAC. by rewrite !app_assoc, Hkey. }
  assert (∀ s, Unsign ds s = Unsign ds' s) as Hunsign.
  { intros s. unfold Unsign. rewrite Hsep.
    destruct (negb (Contains s (Sep ds'))); [done|].
    destruct (slice_to s _) as [value|]; [|done].
    cbn [or_panic mbind result_bind]. by rewrite Hsig. }
  split; [done|]. split; [|split; [done|]].
  - intros now value. unfold SignTimestamp. by rewrite Hsep, Hsig.
  - intros now s maxAge. unfold UnsignTimestamp. by rewrite Hunsign, Hsep.
Qed.

Lemma signers_with_equal_key_material_witness :
  Unsign {| SecretKey := "y"; Salt := "xsigner"; Sep := ":"; Algorithm := "sha1" |}
    (SignTimestamp {| SecretKey := "signery"; Salt := "x"; Sep := ":";
                      Algorithm := "sha256" |} Demo.t0 "value")
  = Unsign {| SecretKey := "signery"; Salt := "x"; Sep := ":"; Algorithm := "sha256" |}
      (SignTimestamp {| SecretKey := "signery"; Salt := "x"; Sep := ":";
                        Algorithm := "sha256" |} Demo.t0 "value").
Proof.
  symmetry.
  exact (proj1 (proj2 (proj2 (signers_with_equal_key_material
           {| SecretKey := "signery"; Salt := "x"; Sep := ":"; Algorithm := "sha256" |}
           {| SecretKey := "y"; Salt := "xsigner"; Sep := ":"; Algorithm := "sha1" |}
           eq_refl eq_refl))) _).
Defined.

(** X11.  [b64Decode] also accepts the padded encoding: it decodes what
    [base64.URLEncoding.EncodeToString] writes, padding characters
    included, to the bytes encoded. *)
Theorem b64Decode_accepts_padding data :
  b64Decode (Base64.EncodeToString data) = Ok data.
Proof. apply Base64Padded.b64Decode_EncodeToString. Qed.

(** X12.  A client exists for a configuration iff the store is not nil and the
    secret is not empty, the missing store being reported first; the client
    made has that store and secret, the maximum age of the configuration,
    a cookie name that is never empty (["sessionid"] unless one is
    configured) and a signer with the session salt and the separator
    [":"]. *)
Theorem NewClient_invariant config :
  match NewClient config with
  | Ok c =>
      DB config = Some (db c)
      ∧ secretKey c = ConfigSecretKey config ∧ secretKey c ≠ ""
      ∧ sessionCookieName c ≠ ""
      ∧ sessionCookieName c
        = (if decide (SessionCookieName config = "") then "sessionid"
           else SessionCookieName config)
      ∧ maxAge c = MaxAge config
      ∧ signer c = sessionSigner (secretKey c) "django.contrib.sessions.SessionStore"
      ∧ Sep (signer c) = ":"
  | Err e =>
      (DB config = None ∧ e = New "database connection is required")
      ∨ (DB config ≠ None ∧ ConfigSecretKey config = "" ∧ e = New "secret key is required")
  | Panic => False
  end.
Proof.
  unfold NewClient. destruct (DB config) as [store|]; [|by left].
  destruct (String.eqb_spec (ConfigSecretKey config) "") as [Hk|Hk]; [by right|].
  cbn [db secretKey sessionCookieName maxAge signer Sep].
  repeat split; try done.
  - destruct (String.eqb_spec (SessionCookieName config) ""); done.
  - destruct (String.eqb_spec (SessionCookieName config) ""); by case_decide.
Qed.

Section Clients.
Context `{!Zlib, !JSON}.

(** X14.  A token that decodes to the nil map (its payload is the JSON [null]):
    [UpdateSessionDataWithSalt] panics as soon as [updates] holds a value
    that is not [nil], on the assignment to an entry of a nil map; with
    deletions only it signs the nil map again. *)
Theorem update_of_nil_session now sessionData secretKey salt updates compress :
  UnsignObject (sessionSigner secretKey salt) now sessionData None = Ok NilMap →
  ((∃ key v, entries updates !! key = Some v ∧ v ≠ VNil) →
   UpdateSessionDataWithSalt now sessionData secretKey salt updates compress = Panic)
  ∧ ((∀ key v, entries updates !! key = Some v → v = VNil) →
     UpdateSessionDataWithSalt now sessionData secretKey salt updates compress
     = SignObject (sessionSigner secretKey salt) now NilMap compress).
Proof.
  intros Hnil. unfold UpdateSessionDataWithSalt. cbv zeta. rewrite Hnil.
  destruct (NilMapFacts.applyUpdates_nil updates)
    as [[-> Hall] | [-> (key & v & Hkey & Hv)]]; cbn [mbind result_bind].
  - split; [|done]. intros (key & v & Hkey & Hv). by destruct (Hv (Hall _ _ Hkey)).
  - split; [done|]. intros Hall. by destruct (Hv (Hall _ _ Hkey)).
Qed.

(** X15.  The client decodes as the package functions do: for a client made by
    [NewClient] whose maximum age is a whole number of seconds,
    [DecodeSessionUserID] returns an identity iff
    [DecodeSessionDataWithMaxAge] returns it with the client's secret and
    that number of seconds; when one fails so does the other, the package
    function wrapping the verification error the client returns bare. *)
Theorem client_decode_agrees config c now sessionData secs :
  NewClient config = Ok c →
  MaxAge config = secs * GoTime.Second →
  secs * GoTime.Second <= Int64.max →
  match snd (DecodeSessionUserID c now sessionData) with
  | Ok userID =>
      DecodeSessionDataWithMaxAge now sessionData (ConfigSecretKey config) secs = Ok userID
  | Err e =>
      DecodeSessionDataWithMaxAge now sessionData (ConfigSecretKey config) secs = Err e
      ∨ DecodeSessionDataWithMaxAge now sessionData (ConfigSecretKey config) secs
        = Err (Errorf_w "failed to unsign session" e)
  | Panic =>
      DecodeSessionDataWithMaxAge now sessionData (ConfigSecretKey config) secs = Panic
  end
  ∧ fst (DecodeSessionUserID c now sessionData) = [SignerCall sessionData].
Proof.
  intros Hc Hage Hmax. split; [|done].
  unfold NewClient in Hc. destruct (DB config) as [store|]; [|done].
  destruct (String.eqb (ConfigSecretKey config) ""); [done|]. injection Hc as <-.
  unfold DecodeSessionUserID, decodeSessionData, DecodeSessionDataWithMaxAge,
    DecodeSessionDataWithSalt, sessionSigner.
  cbn [snd maxAge signer]. cbv zeta. rewrite Hage.
  assert ((0 <? secs * GoTime.Second) = (0 <? secs)) as ->.
  { unfold GoTime.Second. destruct (Z.ltb_spec 0 secs), (Z.ltb_spec 0 (secs * 1000000000));
      (done || lia). }
  destruct (Z.ltb_spec 0 secs) as [Hpos|Hneg].
  - rewrite wrap_id
      by (unfold Int64.InRange, Int64.min, Int64.max, GoTime.Second in *; lia).
    destruct (UnsignObject _ now sessionData (Some _)) as [m|e|]; cbn [mbind result_bind];
      [|by right|done].
    destruct (userIDOf m); [done | by left | done].
  - destruct (UnsignObject _ now sessionData None) as [m|e|]; cbn [mbind result_bind];
      [|by right|done].
    destruct (userIDOf m); [done | by left | done].
Qed.

(** X16.  The age rule of a session.  A session made by
    [EncodeSessionDataWithSalt] when the clock read [now0], decoded at [now]
    with a maximum age of [secs] seconds ([secs] positive, [secs] seconds
    being a [time.Duration]): with [age] the [time.Since] of the whole
    second of [now0], decoding gives the identity of the decoded map when
    [age] is at most [secs] seconds, and the wrapped error "signature age"
    when it is more; with a maximum age of zero or less the age is not
    checked at all. *)
Theorem session_max_age userID secretKey salt additionalData compress now0 now secs
    jsonData decoded :
  json_Marshal (Map (encodedSession userID additionalData)) = Some jsonData →
  json_Unmarshal jsonData = Some decoded →
  (compress = true → zlib_decompress (zlib_compress jsonData) = Inflated jsonData) →
  GoTime.Unix_of now0 ≠ Int64.min →
  0 < secs → secs * GoTime.Second <= Int64.max →
  ∃ token,
    EncodeSessionDataWithSalt now0 userID secretKey salt additionalData compress = Ok token
    ∧ let age := GoTime.Since now (GoTime.Unix (GoTime.Unix_of now0) 0) in
      (age <= secs * GoTime.Second →
       DecodeSessionDataWithSalt now token secretKey salt secs = userIDOf decoded)
      ∧ (secs * GoTime.Second < age →
         DecodeSessionDataWithSalt now token secretKey salt secs
         = Err (Errorf_w "failed to unsign session"
                  (Errorf_signature_age age (secs * GoTime.Second))))
      ∧ (∀ unchecked, unchecked <= 0 →
         DecodeSessionDataWithSalt now token secretKey salt unchecked = userIDOf decoded).
Proof.
  intros HM HU HZ Hmin Hpos Hmax.
  destruct (AgeFacts.UnsignObject_signed_age (sessionSigner secretKey salt) now0 now _
              compress jsonData decoded (secs * GoTime.Second) eq_refl Hmin HM HU HZ)
    as (token & Hsign & Hnone & Hsome).
  exists token. split; [done|]. cbv zeta in *.
  unfold DecodeSessionDataWithSalt. cbv zeta.
  rewrite (proj2 (Z.ltb_lt 0 secs) Hpos).
  rewrite wrap_id
    by (unfold Int64.InRange, Int64.min, Int64.max, GoTime.Second in *; lia).
  rewrite Hsome. split; [|split].
  - intros Hle. by rewrite (proj2 (Z.ltb_ge _ _)).
  - intros Hlt. by rewrite (proj2 (Z.ltb_lt _ _)).
  - intros unchecked Hle. rewrite (proj2 (Z.ltb_ge 0 unchecked)) by done. by rewrite Hnone.
Qed.

(** X17.  What [EncodeSessionData] makes, the decoders accept.  When the JSON
    decoder reads the identity back as the string it was given, the token
    starts with the compression marker, and [DecodeSessionData] and a
    client with the same secret and no maximum age both return the identity
    it was made for, whatever the clock reads. *)
Theorem encode_decode_identity userID secretKey additionalData now0 now jsonData decoded
    config c :
  json_Marshal (Map (encodedSession userID additionalData)) = Some jsonData →
  json_Unmarshal jsonData = Some decoded →
  entries decoded !! "_auth_user_id" = Some (VString userID) →
  zlib_decompress (zlib_compress jsonData) = Inflated jsonData →
  NewClient config = Ok c → ConfigSecretKey config = secretKey → MaxAge config <= 0 →
  ∃ token,
    EncodeSessionData now0 userID secretKey additionalData = Ok token
    ∧ HasPrefix token "." = true
    ∧ DecodeSessionData now token secretKey = Ok userID
    ∧ DecodeSessionUserID c now token = ([SignerCall token], Ok userID).
Proof.
  intros HM HU Hid HZ Hc Hkey Hage.
  destruct (sign_unsign_object
              (sessionSigner secretKey "django.contrib.sessions.SessionStore") now0 now _
              true jsonData decoded eq_refl HM HU (λ _, HZ)) as (token & Hsign & Hunsign).
  exists token. split; [done|].
  assert (userIDOf decoded = Ok userID) as Huser by (unfold userIDOf; by rewrite Hid).
  split; [|split].
  - rewrite (SignObject_unfold _ _ _ _ _ HM) in Hsign. injection Hsign as <-.
    unfold SignTimestamp. by cbn [String.append HasPrefix].
  - unfold DecodeSessionData, DecodeSessionDataWithMaxAge, DecodeSessionDataWithSalt.
    cbv zeta. change (0 <? 0) with false. cbv iota. by rewrite Hunsign.
  - unfold NewClient in Hc. destruct (DB config) as [store|]; [|done].
    destruct (String.eqb (ConfigSecretKey config) ""); [done|]. injection Hc as <-.
    unfold DecodeSessionUserID, decodeSessionData. cbn [maxAge signer].
    rewrite (proj2 (Z.ltb_ge 0 (MaxAge config))) by done. rewrite Hkey.
    fold (sessionSigner secretKey "django.contrib.sessions.SessionStore").
    rewrite Hunsign. cbn [mbind result_bind]. by rewrite Huser.
Qed.

End Clients.

Section Overflow.
Context `{!Zlib, !JSON}.

(** X18.  The maximum age overflows silently.  [DecodeSessionDataWithSalt]
    multiplies [maxAgeSeconds] by [time.Second] in [int64]; when the
    product wraps to a negative duration, a session that verifies without
    a maximum age is refused as too old at every time from its signing
    second on, however large [maxAgeSeconds] is. *)
Theorem max_age_overflow userID secretKey salt additionalData compress now0 now secs
    jsonData decoded :
  json_Marshal (Map (encodedSession userID additionalData)) = Some jsonData →
  json_Unmarshal jsonData = Some decoded →
  (compress = true → zlib_decompress (zlib_compress jsonData) = Inflated jsonData) →
  GoTime.Unix_of now0 ≠ Int64.min →
  0 < secs → Int64.wrap (secs * GoTime.Second) < 0 →
  GoTime.Unix (GoTime.Unix_of now0) 0 <= now →
  ∃ token,
    EncodeSessionDataWithSalt now0 userID secretKey salt additionalData compress = Ok token
    ∧ UnsignObject (sessionSigner secretKey salt) now token None = Ok decoded
    ∧ DecodeSessionDataWithSalt now token secretKey salt secs
      = Err (Errorf_w "failed to unsign session"
               (Errorf_signature_age
                  (GoTime.Since now (GoTime.Unix (GoTime.Unix_of now0) 0))
                  (Int64.wrap (secs * GoTime.Second)))).
Proof.
  intros HM HU HZ Hmin Hpos Hneg Hlater.
  destruct (AgeFacts.UnsignObject_signed_age (sessionSigner secretKey salt) now0 now _
              compress jsonData decoded (Int64.wrap (secs * GoTime.Second))
              eq_refl Hmin HM HU HZ)
    as (token & Hsign & Hnone & Hsome).
  exists token. split; [done|]. split; [done|]. cbv zeta in Hsome.
  unfold DecodeSessionDataWithSalt. cbv zeta.
  rewrite (proj2 (Z.ltb_lt 0 secs) Hpos), Hsome.
  assert (0 <= GoTime.Since now (GoTime.Unix (GoTime.Unix_of now0) 0)) as Hage.
  { unfold GoTime.Since, GoTime.Sub, GoTime.saturate, Int64.min, Int64.max. lia. }
  by rewrite (proj2 (Z.ltb_lt _ _)) by lia.
Qed.

End Overflow.

(** X19.  [AuthMiddleware] fails closed.  For a client that is not nil the
    handler returns, and either the request carries a valid session, and
    the handler queries the store once, stores the record the store
    returned under the context key (["django_session"] unless configured)
    and calls [Next]; or it does not, and the handler, after at most one
    query (for the cookie's value), calls [OnError] if it is set and
    otherwise redirects with 302 to the login URL (["/account/login"]
    unless configured), then aborts: [Next] is never called without a valid
    session, and nothing is stored in the context then. *)
Theorem AuthMiddleware_fail_closed config client c now :
  MwClient config = Some client →
  snd (AuthMiddleware config c now) = Returns
  ∧ ((∃ sessionID r,
        valid_session client c now sessionID r
        ∧ fst (AuthMiddleware config c now)
          = [ClientEvent (StoreQuery sessionQuery sessionID);
             CtxSet (contextKey config) r; CtxNext])
     ∨ ((∀ sessionID r, ¬ valid_session client c now sessionID r)
        ∧ (∃ queries err,
             fst (AuthMiddleware config c now)
             = queries ++ [(if OnError config then OnErrorCall err
                            else CtxRedirect 302 (loginURL config)); CtxAbort]
             ∧ (queries = []
                ∨ ∃ sessionID,
                    Cookie c (sessionCookieName client) = Some sessionID
                    ∧ queries = [ClientEvent (StoreQuery sessionQuery sessionID)]))
        ∧ (CtxNext ∉ fst (AuthMiddleware config c now))
        ∧ ∀ key r, CtxSet key r ∉ fst (AuthMiddleware config c now))).
Proof.
  intros Hclient. unfold AuthMiddleware. cbv zeta.
  destruct (MiddlewareFacts.getSessionFromCookie_cases (setConfigDefaults config)
              client c now Hclient)
    as [(sessionID & r & Hvalid & ->) | (Hnone & trace & err & -> & Htrace)].
  - split; [done|]. left. exists sessionID, r. split; [done|].
    by rewrite MiddlewareFacts.defaults_key.
  - split; [done|]. right. split; [done|].
    rewrite MiddlewareFacts.defaults_url. cbn [setConfigDefaults OnError fst].
    split; [|split].
    + eexists _, err. split; [done|].
      destruct Htrace as [->|(sessionID & Hcookie & ->)]; [by left | right; by eexists].
    + destruct Htrace as [->|(sessionID & _ & ->)], (OnError config);
        absent.
    + intros key r. destruct Htrace as [->|(sessionID & _ & ->)], (OnError config);
        absent.
Qed.

(** X20.  [OptionalAuthMiddleware] never stops a request.  For a client that is
    not nil the handler returns after calling [Next] exactly once, as its
    last call, and never aborts, redirects or calls [OnError]; it stores
    the record of a valid session under the context key before that, and
    stores nothing when the request carries none. *)
Theorem OptionalAuthMiddleware_always_continues config client c now :
  MwClient config = Some client →
  snd (OptionalAuthMiddleware config c now) = Returns
  ∧ (∃ before, fst (OptionalAuthMiddleware config c now) = before ++ [CtxNext]
               ∧ CtxNext ∉ before)
  ∧ (CtxAbort ∉ fst (OptionalAuthMiddleware config c now))
  ∧ (∀ code location, CtxRedirect code location ∉ fst (OptionalAuthMiddleware config c now))
  ∧ (∀ err, OnErrorCall err ∉ fst (OptionalAuthMiddleware config c now))
  ∧ ((∃ sessionID r,
        valid_session client c now sessionID r
        ∧ fst (OptionalAuthMiddleware config c now)
          = [ClientEvent (StoreQuery sessionQuery sessionID);
             CtxSet (contextKey config) r; CtxNext])
     ∨ ((∀ sessionID r, ¬ valid_session client c now sessionID r)
        ∧ ∀ key r, CtxSet key r ∉ fst (OptionalAuthMiddleware config c now))).
Proof.
  intros Hclient. unfold OptionalAuthMiddleware. cbv zeta.
  destruct (MiddlewareFacts.getSessionFromCookie_cases (setConfigDefaults config)
              client c now Hclient)
    as [(sessionID & r & Hvalid & ->) | (Hnone & trace & err & -> & Htrace)].
  - rewrite MiddlewareFacts.defaults_key. cbn [fst snd fmap list_fmap app].
    split; [done|]. split.
    { exists [ClientEvent (StoreQuery sessionQuery sessionID); CtxSet (contextKey config) r].
      split; [done | absent]. }
    split; [absent|]. split; [absent|].
    split; [absent|]. left. by exists sessionID, r.
  - cbn [fst snd]. split; [done|].
    assert (trace = [] ∨ ∃ sessionID, trace = [StoreQuery sessionQuery sessionID])
      as [->|[sessionID ->]] by (destruct Htrace as [|(? & _ & ?)]; eauto).
    all: split; [eexists; split; [reflexivity|]; cbn [fmap list_fmap]; absent|].
    all: cbn [fmap list_fmap app].
    all: split; [absent|].
    all: split; [absent|].
    all: split; [absent|].
    all: right; split; [done|]; absent.
Qed.

(** X21.  The two middlewares see the same sessions: on every request they end
    alike (both return or both panic), send the same queries to the store,
    at most one, and store the same record under the same key; neither
    hands a payload to the signer. *)
Theorem middlewares_agree config c now :
  snd (AuthMiddleware config c now) = snd (OptionalAuthMiddleware config c now)
  ∧ client_events (fst (AuthMiddleware config c now))
    = client_events (fst (OptionalAuthMiddleware config c now))
  ∧ stored (fst (AuthMiddleware config c now))
    = stored (fst (OptionalAuthMiddleware config c now))
  ∧ (length (client_events (fst (AuthMiddleware config c now))) <= 1)%nat
  ∧ (length (stored (fst (AuthMiddleware config c now))) <= 1)%nat
  ∧ ∀ payload, SignerCall payload ∉ client_events (fst (AuthMiddleware config c now)).
Proof.
  unfold AuthMiddleware, OptionalAuthMiddleware. cbv zeta.
  destruct (MwClient config) as [client|] eqn:Hclient.
  2: { unfold getSessionFromCookie. cbn [setConfigDefaults MwClient]. rewrite Hclient.
       cbn. repeat split; try lia. absent. }
  destruct (MiddlewareFacts.getSessionFromCookie_cases (setConfigDefaults config)
              client c now Hclient)
    as [(sessionID & r & Hvalid & ->) | (Hnone & trace & err & -> & Htrace)].
  - cbn. repeat split; try lia. absent.
  - assert (trace = [] ∨ ∃ sessionID, trace = [StoreQuery sessionQuery sessionID])
      as [->|[sessionID ->]] by (destruct Htrace as [|(? & _ & ?)]; eauto).
    all: destruct (OnError (setConfigDefaults config)); cbn; repeat split; try lia.
    all: absent.
Qed.

(** X22.  The defaults of the middleware.  After [setConfigDefaults] neither the
    login URL nor the context key is empty, a field that was set keeps its
    value, the client and [OnError] are unchanged, and applying the
    defaults again changes nothing; a configuration and its completion by
    the defaults give the same handlers. *)
Theorem middleware_defaults config :
  let completed := setConfigDefaults config in
  LoginRedirectURL completed = loginURL config ∧ loginURL config ≠ ""
  ∧ MwSessionKey completed = contextKey config ∧ contextKey config ≠ ""
  ∧ (LoginRedirectURL config ≠ "" → loginURL config = LoginRedirectURL config)
  ∧ (MwSessionKey config ≠ "" → contextKey config = MwSessionKey config)
  ∧ MwClient completed = MwClient config ∧ OnError completed = OnError config
  ∧ setConfigDefaults completed = completed
  ∧ AuthMiddleware completed = AuthMiddleware config
  ∧ OptionalAuthMiddleware completed = OptionalAuthMiddleware config.
Proof.
  cbv zeta.
  split; [apply MiddlewareFacts.defaults_url|].
  split; [unfold loginURL; by case_decide|].
  split; [apply MiddlewareFacts.defaults_key|].
  split; [unfold contextKey; by case_decide|].
  split; [unfold loginURL; by case_decide|].
  split; [unfold contextKey; by case_decide|].
  split; [done|]. split; [done|].
  split; [apply MiddlewareFacts.setConfigDefaults_idempotent|].
  unfold AuthMiddleware, OptionalAuthMiddleware. cbv zeta.
  by rewrite MiddlewareFacts.setConfigDefaults_idempotent.
Qed.

(** X23.  A middleware made with a nil client is made without complaint and
    panics on every request, before anything is read or done: the cookie
    name is read through the nil pointer. *)
Theorem middleware_nil_client_panics config c now :
  MwClient config = None →
  AuthMiddleware config c now = ([], Panics)
  ∧ OptionalAuthMiddleware config c now = ([], Panics).
Proof.
  intros Hnil. unfold AuthMiddleware, OptionalAuthMiddleware, getSessionFromCookie.
  cbn [setConfigDefaults MwClient]. by rewrite Hnil.
Qed.

(** ** The further properties on concrete inputs *)

Section MoreSamples.
#[local] Existing Instance StoredZlib.codec.
#[local] Existing Instance FlatJSON.codec.

Lemma signature_failure_propagates_witness :
  DecodeSessionDataWithSalt Demo.t0 Demo.forged Demo.secret
    "django.contrib.sessions.SessionStore" 3600
  = Err (Errorf_w "failed to unsign session" (New "signature does not match")).
Proof.
  refine (proj1 (proj2 (proj2 (signature_failure_propagates Demo.t0 Demo.forged Demo.secret
            "django.contrib.sessions.SessionStore" 3600 NilMap true _ _)))).
  vm_compute. reflexivity.
Defined.

Lemma decoding_errors_are_not_sentinels_witness :
  errors_Is (New "signature does not match") ErrInvalidSignature = false.
Proof.
  apply (decoding_errors_are_not_sentinels (Demo.client 0) Demo.t0 Demo.forged Demo.secret
           "django.contrib.sessions.SessionStore" 0).
  - left. vm_compute. reflexivity.
  - unfold sentinels. repeat constructor.
Defined.

Lemma update_of_nil_session_witness :
  ∃ token,
    SignObject Demo.ds Demo.t0 NilMap true = Ok token
    ∧ UpdateSessionDataWithSalt Demo.t0 token Demo.secret
        "django.contrib.sessions.SessionStore" (Map {["theme" := VString "dark"]}) true
      = Panic.
Proof.
  eexists. split; [vm_compute; reflexivity|].
  refine (proj1 (update_of_nil_session _ _ _ _ _ _ _) _).
  - vm_compute. reflexivity.
  - exists "theme", (VString "dark"). split; [vm_compute; reflexivity | discriminate].
Defined.

Lemma client_decode_agrees_witness :
  fst (DecodeSessionUserID (Demo.client 0) Demo.t0 Demo.token) = [SignerCall Demo.token].
Proof.
  refine (proj2 (client_decode_agrees (Demo.config 0 0) _ Demo.t0 Demo.token 0
                   _ _ _)).
  - reflexivity.
  - reflexivity.
  - vm_compute. discriminate.
Defined.

Lemma session_max_age_witness :
  ∃ token,
    EncodeSessionDataWithSalt Demo.t0 "42" Demo.secret "salt" NilMap true = Ok token
    ∧ DecodeSessionDataWithSalt (Demo.t0 + 3600 * GoTime.Second) token Demo.secret "salt" 3600
      = Err (Errorf_w "failed to unsign session"
               (Errorf_signature_age (3600 * GoTime.Second + 5) (3600 * GoTime.Second)))
    ∧ DecodeSessionDataWithSalt (Demo.t0 + 3600 * GoTime.Second) token Demo.secret "salt" 0
      = Ok "42".
Proof.
  destruct (session_max_age "42" Demo.secret "salt" NilMap true Demo.t0
              (Demo.t0 + 3600 * GoTime.Second) 3600 Demo.session_json Demo.session)
    as (token & Henc & _ & Hold & Hunchecked).
  - vm_compute. reflexivity.
  - vm_compute. reflexivity.
  - intros _. vm_compute. reflexivity.
  - vm_compute. discriminate.
  - reflexivity.
  - vm_compute. discriminate.
  - exists token. split; [exact Henc|]. split.
    + apply Hold. reflexivity.
    + apply (Hunchecked 0). discriminate.
Defined.

Lemma encode_decode_identity_witness :
  ∃ token,
    EncodeSessionData Demo.t0 "42" Demo.secret NilMap = Ok token
    ∧ HasPrefix token "." = true
    ∧ DecodeSessionData (Demo.t0 + 3600 * GoTime.Second) token Demo.secret = Ok "42"
    ∧ DecodeSessionUserID (Demo.client 0) (Demo.t0 + 3600 * GoTime.Second) token
      = ([SignerCall token], Ok "42").
Proof.
  apply (encode_decode_identity "42" Demo.secret NilMap Demo.t0
           (Demo.t0 + 3600 * GoTime.Second) Demo.session_json Demo.session
           (Demo.config 0 0) (Demo.client 0)).
  - vm_compute. reflexivity.
  - vm_compute. reflexivity.
  - vm_compute. reflexivity.
  - vm_compute. reflexivity.
  - reflexivity.
  - reflexivity.
  - discriminate.
Defined.

Lemma AuthMiddleware_fail_closed_witness :
  snd (AuthMiddleware (Demo.middleware 2000) Demo.request 1000) = Returns.
Proof.
  exact (proj1 (AuthMiddleware_fail_closed (Demo.middleware 2000) (Demo.client 2000)
                  Demo.request 1000 eq_refl)).
Defined.

Lemma OptionalAuthMiddleware_always_continues_witness :
  snd (OptionalAuthMiddleware (Demo.middleware 500) Demo.request 1000) = Returns.
Proof.
  exact (proj1 (OptionalAuthMiddleware_always_continues (Demo.middleware 500)
                  (Demo.client 500) Demo.request 1000 eq_refl)).
Defined.

Lemma middleware_nil_client_panics_witness :
  AuthMiddleware {| MwClient := None; LoginRedirectURL := "/login";
                    MwSessionKey := "session"; OnError := true |} Demo.request 1000
  = ([], Panics).
Proof.
  exact (proj1 (middleware_nil_client_panics
                  {| MwClient := None; LoginRedirectURL := "/login";
                     MwSessionKey := "session"; OnError := true |} Demo.request 1000 eq_refl)).
Defined.

Lemma max_age_overflow_witness :
  ∃ token,
    EncodeSessionDataWithSalt Demo.t0 "42" Demo.secret "salt" NilMap true = Ok token
    ∧ UnsignObject (sessionSigner Demo.secret "salt") Demo.t0 token None = Ok Demo.session
    ∧ DecodeSessionDataWithSalt Demo.t0 token Demo.secret "salt" 9223372037
      = Err (Errorf_w "failed to unsign session"
               (Errorf_signature_age
                  (GoTime.Since Demo.t0 (GoTime.Unix (GoTime.Unix_of Demo.t0) 0))
                  (Int64.wrap (9223372037 * GoTime.Second)))).
Proof.
  apply (max_age_overflow "42" Demo.secret "salt" NilMap true Demo.t0 Demo.t0 9223372037
           Demo.session_json Demo.session).
  - vm_compute. reflexivity.
  - vm_compute. reflexivity.
  - intros _. vm_compute. reflexivity.
  - vm_compute. discriminate.
  - reflexivity.
  - reflexivity.
  - vm_compute. discriminate.
Defined.

End MoreSamples.
